(** * SafeBrowsingGuard: the managed-block hosts patcher

    A shallow embedding of
    [scripts/safe_browsing_guard/safe_browsing_guard.py]: the block
    renderer ([render_block]), the line scanner ([strip_managed_block]),
    the patcher ([apply_changes]) and the backup / restore safety net
    ([ensure_backup], [restore_backup]).

    Conventions of the embedding.
    - A Python [str] is a list of Unicode code points ([N]).
    - The two files the program touches ([hosts_path()] and
      [config_dir / BACKUP_FILE]) are the two file slots of a [world];
      a slot is [None] when the file does not exist.  Files hold text
      (the UTF-8 codec is not part of the model).
    - The host is POSIX: [platform.system()] does not start with "win",
      so [hosts_path()] is [/etc/hosts], [os.linesep] is a single line
      feed and [flush_dns] only prints its reminder.
    - Effects are threaded through a state-and-exception monad [IO]. *)

From Stdlib Require Import Ascii String.
From Stdlib Require Import List NArith Bool Lia Arith.
From Stdlib Require Import Sorting.Sorted Sorting.Permutation.
From Stdlib Require Import FunInd.
Import ListNotations.

Set Implicit Arguments.

(* ================================================================== *)
(** * Python text *)
(* ================================================================== *)

Module PyStr.

(** A code point, and a Python [str]. *)
Definition char := N.
Definition str := list char.

(** An ASCII literal of the source as a [str]. *)
Definition py (s : string) : str :=
  map N_of_ascii (list_ascii_of_string s).

Definition TAB : char := 9%N.
Definition LF : char := 10%N.
Definition CR : char := 13%N.

(** Equality of two [str], as Python's [==]. *)
Fixpoint str_eqb (a b : str) : bool :=
  match a, b with
  | [], [] => true
  | x :: a', y :: b' => N.eqb x y && str_eqb a' b'
  | _, _ => false
  end.

(** Python's [<] on [str]: lexicographic on code points. *)
Fixpoint str_ltb (a b : str) : bool :=
  match a, b with
  | _, [] => false
  | [], _ :: _ => true
  | x :: a', y :: b' =>
      if N.ltb x y then true
      else if N.eqb x y then str_ltb a' b' else false
  end.

Definition str_lt (a b : str) : Prop := str_ltb a b = true.

(** [str.isspace] on one code point: the white space of CPython's
    Unicode database. *)
Definition isspace (c : char) : bool :=
  ((9 <=? c) && (c <=? 13)
   || (28 <=? c) && (c <=? 32)
   || (c =? 133) || (c =? 160) || (c =? 5760)
   || (8192 <=? c) && (c <=? 8202)
   || (c =? 8232) || (c =? 8233) || (c =? 8239)
   || (c =? 8287) || (c =? 12288))%N.

(** [s.lstrip()], [s.rstrip()] and [s.strip()]. *)
Fixpoint lstrip (s : str) : str :=
  match s with
  | [] => []
  | c :: s' => if isspace c then lstrip s' else s
  end.

Fixpoint rstrip (s : str) : str :=
  match s with
  | [] => []
  | c :: s' =>
      match rstrip s' with
      | [] => if isspace c then [] else [c]
      | r => c :: r
      end
  end.

Definition strip (s : str) : str := rstrip (lstrip s).

(** [s.endswith(LF)], the test for a final line feed. *)
Fixpoint endswith_LF (s : str) : bool :=
  match s with
  | [] => false
  | [c] => N.eqb c LF
  | _ :: s' => endswith_LF s'
  end.

(** [sorted(xs)] on a list of [str]: a stable insertion sort by [<]. *)
Fixpoint insert_sorted (x : str) (xs : list str) : list str :=
  match xs with
  | [] => [x]
  | y :: ys => if str_ltb y x then y :: insert_sorted x ys
               else x :: xs
  end.

Definition sorted (xs : list str) : list str :=
  fold_right insert_sorted [] xs.

(** [set(xs)] followed by iteration: the distinct elements of [xs].
    Python fixes no iteration order for a set; [sorted_set_unique]
    below shows that the order chosen here does not matter once the
    result is passed to [sorted]. *)
Fixpoint set_of (xs : list str) : list str :=
  match xs with
  | [] => []
  | x :: xs' => if existsb (str_eqb x) xs' then set_of xs'
                else x :: set_of xs'
  end.

(** The text a file object delivers in text mode with the default
    [newline=None]: every CR LF and every lone CR reads as LF. *)
Fixpoint universal_newlines (s : str) : str :=
  match s with
  | [] => []
  | c :: s' =>
      if N.eqb c CR then
        LF :: match s' with
              | d :: s'' => if N.eqb d LF then universal_newlines s''
                            else universal_newlines s'
              | [] => []
              end
      else c :: universal_newlines s'
  end.

(** The lines of a text, each keeping its line feed; only the last
    one may lack it ([readlines] on the translated text). *)
Fixpoint split_lines (s : str) : list str :=
  match s with
  | [] => []
  | c :: s' =>
      if N.eqb c LF then [c] :: split_lines s'
      else match split_lines s' with
           | [] => [[c]]
           | l :: ls => (c :: l) :: ls
           end
  end.

End PyStr.
Import PyStr.

(* ================================================================== *)
(** * The world: two files, a console, and a write fault *)
(* ================================================================== *)

(** [hosts_file] is the file at [hosts_path()], [backup_file] the one
    at [config_dir / BACKUP_FILE]; the two paths differ in their last
    component, so they never name the same file.  [hosts_quota] is the
    environment's write fault on the hosts file: [None] when every
    write succeeds, [Some q] when the device takes [q] more characters
    and then reports an error.  [stdout] collects the [print] calls,
    oldest first. *)
Record world : Type := World {
  hosts_file : option str;
  backup_file : option str;
  hosts_quota : option nat;
  stdout : list string
}.

Definition set_hosts (h : option str) (w : world) : world :=
  World h (backup_file w) (hosts_quota w) (stdout w).
Definition set_backup (b : option str) (w : world) : world :=
  World (hosts_file w) b (hosts_quota w) (stdout w).
Definition set_quota (q : option nat) (w : world) : world :=
  World (hosts_file w) (backup_file w) q (stdout w).
Definition add_stdout (m : string) (w : world) : world :=
  World (hosts_file w) (backup_file w) (hosts_quota w) (stdout w ++ [m]).

(** The exceptions the modelled calls raise. *)
Inductive exn : Type :=
| FileNotFoundError
| OSError.

(** A computation runs in a world, leaves a world (also when it
    raises: what was written stays written) and either raises or
    returns. *)
Definition IO (A : Type) : Type := world -> world * (exn + A).

Definition ret {A} (a : A) : IO A := fun w => (w, inr a).
Definition raise {A} (e : exn) : IO A := fun w => (w, inl e).
Definition bind {A B} (m : IO A) (k : A -> IO B) : IO B :=
  fun w => match m w with
           | (w', inr a) => k a w'
           | (w', inl e) => (w', inl e)
           end.

Declare Scope io_scope.
Delimit Scope io_scope with io.
Notation "x <- m ;; k" := (bind m (fun x => k))
  (at level 61, m at next level, right associativity) : io_scope.
Notation "m ;; k" := (bind m (fun _ => k))
  (at level 61, right associativity) : io_scope.
Local Open Scope io_scope.

(** ** File and console primitives *)

(** [backup.exists()]. *)
Definition backup_exists : IO bool :=
  fun w => (w, inr (match backup_file w with Some _ => true | None => false end)).

(** [shutil.copy2(hosts, backup)]. *)
Definition copy2_hosts_to_backup : IO unit :=
  fun w => match hosts_file w with
           | Some c => (set_backup (Some c) w, inr tt)
           | None => raise FileNotFoundError w
           end.

(** [hosts.open("w", ...)]: the file is created or truncated. *)
Definition open_w : IO unit :=
  fun w => (set_hosts (Some []) w, inr tt).

(** [f.write(t)] on the hosts file: the text is appended as far as the
    quota allows. *)
Definition fwrite (t : str) : IO unit :=
  fun w =>
    let old := match hosts_file w with Some c => c | None => [] end in
    match hosts_quota w with
    | None => (set_hosts (Some (old ++ t)) w, inr tt)
    | Some q =>
        if length t <=? q
        then (set_quota (Some (q - length t)) (set_hosts (Some (old ++ t)) w), inr tt)
        else (set_quota (Some 0) (set_hosts (Some (old ++ firstn q t)) w), inl OSError)
    end.

(** [f.writelines(lines)]. *)
Fixpoint writelines (lines : list str) : IO unit :=
  match lines with
  | [] => ret tt
  | l :: ls => fwrite l ;; writelines ls
  end.

(** [hosts.open("r", ...)] followed by [f.readlines()]. *)
Definition readlines (content : str) : list str :=
  split_lines (universal_newlines content).

Definition open_r_readlines : IO (list str) :=
  fun w => match hosts_file w with
           | Some c => ret (readlines c) w
           | None => raise FileNotFoundError w
           end.

(** [shutil.copy2(backup, hosts)]: the hosts file is rewritten with the
    backup's content. *)
Definition copy2_backup_to_hosts : IO unit :=
  fun w => match backup_file w with
           | Some c => (open_w ;; fwrite c) w
           | None => raise FileNotFoundError w
           end.

Definition print (m : string) : IO unit :=
  fun w => (add_stdout m w, inr tt).

(* ================================================================== *)
(** * The program *)
(* ================================================================== *)

Definition SAFESEARCH_IP : str := py "216.239.38.120".
Definition SAFESEARCH_DOMAINS : list str :=
  [ py "google.com";
    py "www.google.com";
    py "www.google.co.uk";
    py "www.google.ca";
    py "youtube.com";
    py "www.youtube.com" ].

Definition BEGIN_MARKER : str := py "# >>> SafeBrowsingGuard begin".
Definition END_MARKER : str := py "# <<< SafeBrowsingGuard end".
Definition BACKUP_FILE : string := "hosts.backup".

(** [config_dir / BACKUP_FILE], as [print] shows it. *)
Definition backup_path (config_dir : string) : string :=
  (config_dir ++ "/" ++ BACKUP_FILE)%string.

Definition ensure_backup : IO unit :=
  e <- backup_exists ;;
  if negb e then copy2_hosts_to_backup else ret tt.

(** One turn of the [for line in lines] loop of [strip_managed_block],
    on the pair of its two variables [(cleaned, skipping)]. *)
Definition strip_step (st : list str * bool) (line : str) : list str * bool :=
  let (cleaned, skipping) := st in
  if str_eqb (strip line) BEGIN_MARKER then (cleaned, true)
  else if str_eqb (strip line) END_MARKER then (cleaned, false)
  else if negb skipping then (cleaned ++ [line], skipping)
  else (cleaned, skipping).

Definition strip_managed_block (lines : list str) : list str :=
  fst (fold_left strip_step lines ([], false)).

Definition render_block (domains : list str) : list str :=
  let block := [BEGIN_MARKER] in
  let block := block ++ [py "# SafeSearch mappings -> " ++ SAFESEARCH_IP] in
  let block :=
    fold_left (fun b d => b ++ [SAFESEARCH_IP ++ [TAB] ++ d])
              SAFESEARCH_DOMAINS block in
  let block :=
    match domains with
    | [] => block
    | _ :: _ =>
        fold_left (fun b d => b ++ [py "127.0.0.1" ++ [TAB] ++ d])
                  (sorted (set_of domains))
                  (block ++ [py "# Custom blocked domains -> 127.0.0.1"])
    end in
  let block := block ++ [END_MARKER] in
  map (fun line => line ++ [LF]) block.

Definition flush_dns : IO unit :=
  print "Reminder: flush DNS manually if needed (e.g., 'sudo killall -HUP mDNSResponder' on macOS or 'sudo systemd-resolve --flush-caches' on systemd-resolved).".

(** The test [unmanaged and not unmanaged[-1].endswith(LF)] of the write
    phase. *)
Definition needs_newline (unmanaged : list str) : bool :=
  match unmanaged with
  | [] => false
  | _ :: _ => negb (endswith_LF (last unmanaged []))
  end.

Definition apply_changes (config_dir : string) (domains : list str) : IO unit :=
  ensure_backup ;;
  original_lines <- open_r_readlines ;;
  let unmanaged := strip_managed_block original_lines in
  let managed := render_block domains in
  open_w ;;
  writelines unmanaged ;;
  (if needs_newline unmanaged then fwrite [LF] else ret tt) ;;
  writelines managed ;;
  flush_dns ;;
  print ("Changes applied. Managed block written between markers. Backup at: "
           ++ backup_path config_dir).

Definition restore_backup (config_dir : string) : IO unit :=
  e <- backup_exists ;;
  if negb e then print "No backup found."
  else
    copy2_backup_to_hosts ;;
    flush_dns ;;
    print "Backup restored. DNS cache refreshed where supported.".

(* ================================================================== *)
(** * Vocabulary of the properties *)
(* ================================================================== *)

(** The text that [writelines] puts in a file. *)
Definition text (lines : list str) : str := concat lines.

(** A line is a sentinel line when its trimmed form is a marker. *)
Definition is_begin (line : str) : bool := str_eqb (strip line) BEGIN_MARKER.
Definition is_end (line : str) : bool := str_eqb (strip line) END_MARKER.
Definition is_sentinel (line : str) : bool := is_begin line || is_end line.

(** A foreign (unmanaged) line: its trimmed form is neither marker. *)
Definition foreign_line (line : str) : Prop := is_sentinel line = false.

(** The loop of [strip_managed_block] as a recursion on the lines that
    are left, [skipping] being the loop's flag. *)
Fixpoint strip_loop (skipping : bool) (lines : list str) : list str :=
  match lines with
  | [] => []
  | line :: rest =>
      if is_begin line then strip_loop true rest
      else if is_end line then strip_loop false rest
      else if negb skipping then line :: strip_loop skipping rest
      else strip_loop skipping rest
  end.

(** The unmanaged lines as the write phase leaves them in the file: a
    line feed is added to the last one when it has none. *)
Definition normalise (unmanaged : list str) : list str :=
  if needs_newline unmanaged
  then removelast unmanaged ++ [last unmanaged [] ++ [LF]]
  else unmanaged.

(** The whole text the write phase of [apply_changes] sets out to
    write. *)
Definition payload (unmanaged managed : list str) : str :=
  text unmanaged ++ (if needs_newline unmanaged then [LF] else []) ++ text managed.

(** A line as [readlines] returns all but perhaps the last: one line
    feed, at the end. *)
Definition terminated (line : str) : Prop :=
  exists body, line = body ++ [LF] /\ ~ In LF body.

(** The shape of what [readlines] returns: every line is terminated,
    except that the last may be a non-empty text without line feed. *)
Inductive lines_wf : list str -> Prop :=
| lines_wf_nil : lines_wf []
| lines_wf_open (l : str) : l <> [] -> ~ In LF l -> lines_wf [l]
| lines_wf_cons (l : str) (ls : list str) :
    terminated l -> lines_wf ls -> lines_wf (l :: ls).

(** A text without line breaks: no LF and no CR. *)
Definition line_break_free (s : str) : Prop := ~ In LF s /\ ~ In CR s.

Definition line_break_freeb (s : str) : bool :=
  forallb (fun c => negb (N.eqb c LF) && negb (N.eqb c CR)) s.

(** A file seen as a sequence of segments: a foreign line, or a region
    between a begin sentinel line and the next end sentinel line. *)
Inductive segment : Type :=
| Foreign (line : str)
| Managed (begin_line : str) (inner : list str) (end_line : str).

Definition segment_lines (s : segment) : list str :=
  match s with
  | Foreign l => [l]
  | Managed b inner e => b :: inner ++ [e]
  end.

Definition segment_foreign (s : segment) : list str :=
  match s with
  | Foreign l => [l]
  | Managed _ _ _ => []
  end.



Definition segment_ok (s : segment) : Prop :=
  match s with
  | Foreign l => foreign_line l
  | Managed b inner e =>
      is_begin b = true /\ Forall (fun l => is_end l = false) inner
      /\ is_begin e = false /\ is_end e = true
  end.

(** The pieces of a rendered block, before the line feeds are added. *)
Definition safesearch_comment : str := py "# SafeSearch mappings -> " ++ SAFESEARCH_IP.
Definition safesearch_line (d : str) : str := SAFESEARCH_IP ++ [TAB] ++ d.
Definition custom_comment : str := py "# Custom blocked domains -> 127.0.0.1".
Definition block_address : str := py "127.0.0.1".
Definition custom_line (d : str) : str := block_address ++ [TAB] ++ d.
Definition add_LF (line : str) : str := line ++ [LF].

(** The lines of a rendered block strictly between its first and its
    last line. *)
Definition block_inner (domains : list str) : list str :=
  map add_LF
    (safesearch_comment :: map safesearch_line SAFESEARCH_DOMAINS
     ++ match domains with
        | [] => []
        | _ :: _ => custom_comment :: map custom_line (sorted (set_of domains))
        end).


(** Strictly increasing lists of [str]. *)
Definition strictly_sorted (xs : list str) : Prop := StronglySorted str_lt xs.

(** The unmanaged lines [apply_changes] finds in a hosts file of
    content [c], and the form in which it writes them back. *)
Definition unmanaged_of (c : str) : list str :=
  strip_managed_block (readlines c).
Definition kept_of (c : str) : list str := normalise (unmanaged_of c).

(** The two messages a successful [apply_changes] prints. *)
Definition applied_messages (config_dir : string) : list string :=
  [ "Reminder: flush DNS manually if needed (e.g., 'sudo killall -HUP mDNSResponder' on macOS or 'sudo systemd-resolve --flush-caches' on systemd-resolved)."%string;
    ("Changes applied. Managed block written between markers. Backup at: "
       ++ backup_path config_dir)%string ].

(** The backup file once [ensure_backup] has run in a world whose
    hosts file holds [c]. *)
Definition backup_after (w : world) (c : str) : str :=
  match backup_file w with Some b => b | None => c end.

(** [apply_changes] run once for each domain list of [ds], in order. *)
Fixpoint apply_all (config_dir : string) (ds : list (list str)) : IO unit :=
  match ds with
  | [] => ret tt
  | d :: ds' => apply_changes config_dir d ;; apply_all config_dir ds'
  end.


(* ================================================================== *)
(** * Further vocabulary *)
(* ================================================================== *)

(** [subseq xs ys]: [xs] is [ys] with some elements left out, the
    others in their order. *)
Inductive subseq {A : Type} : list A -> list A -> Prop :=
| subseq_nil : subseq [] []
| subseq_keep (x : A) (xs ys : list A) : subseq xs ys -> subseq (x :: xs) (x :: ys)
| subseq_drop (y : A) (xs ys : list A) : subseq xs ys -> subseq xs (y :: ys).

(** The two messages a successful restore prints. *)
Definition restored_messages : list string :=
  [ "Reminder: flush DNS manually if needed (e.g., 'sudo killall -HUP mDNSResponder' on macOS or 'sudo systemd-resolve --flush-caches' on systemd-resolved)."%string;
    "Backup restored. DNS cache refreshed where supported."%string ].

(* ================================================================== *)
(** * The configuration file and the menu *)
(* ================================================================== *)

Definition DEFAULT_DOMAINS : list str := [py "example.com"; py "badsite.com"].
Definition CONFIG_FILE : string := "sbg_config.json".

(** What [json.load] returns: the decoded document.  A number keeps
    the text it was written with. *)
Unset Elimination Schemes.
Inductive json : Type :=
| JNull
| JBool (b : bool)
| JNumber (literal : str)
| JString (s : str)
| JArray (items : list json)
| JObject (members : list (str * json)).
Set Elimination Schemes.

(** The content of the file at [config_dir / CONFIG_FILE]: a JSON
    document, or anything on which opening the file or [json.load]
    raises.  The JSON codec itself is not part of the model:
    [json.dump] stores a document and [json.load] returns it. *)
Inductive config_text : Type :=
| Document (data : json)
| Unreadable.

(** [save_config]: the file is rewritten with the sorted set of the
    domains, as a JSON array of strings.  The result is the new state
    of the configuration file. *)
Definition save_config (domains : list str) : option config_text :=
  Some (Document (JArray (map JString (sorted (set_of domains))))).

(** The [actions] dictionary of [menu_loop], in the order it is
    written. *)
Definition actions : list (str * str) :=
  [ (py "1", py "Add a domain");
    (py "2", py "Remove a domain");
    (py "3", py "List configured domains");
    (py "4", py "Apply changes (update hosts)");
    (py "5", py "Restore hosts backup");
    (py "0", py "Quit") ].

(** [d[key]] for a key of [d]. *)
Definition dict_get (d : list (str * str)) (key : str) : str :=
  match find (fun kv => str_eqb (fst kv) key) d with
  | Some kv => snd kv
  | None => []
  end.

(** How [menu_loop] ends: [EOFError] from [input] when the standard
    input is exhausted, or an exception of the patcher passing
    through. *)
Inductive menu_exn : Type :=
| EOFError
| Propagated (e : exn).

(** The state in which [menu_loop] ends: the files, the configuration
    file, the loop's variable [domains], the lines of standard input
    not read, and whether it returned or raised. *)
Record menu_end : Type := MenuEnd {
  end_world : world;
  end_config : option config_text;
  end_domains : list str;
  end_stdin : list str;
  end_result : menu_exn + unit
}.

Section FrontEnd.

(** Three library functions are parameters: [str(item)] for a decoded
    JSON item that is not a string, [str.lower], and the encoding of
    text on its way to the console. *)
Variable str_other : json -> str.
Variable lower : str -> str.
Variable show : str -> string.

(** [str(item)] for an item of the decoded array. *)
Definition py_str (item : json) : str :=
  match item with
  | JString s => s
  | _ => str_other item
  end.

(** [load_config], on the state of the configuration file ([None]
    when the file does not exist).  Every exception is swallowed. *)
Definition load_config (config_file : option config_text) : list str :=
  match config_file with
  | None => DEFAULT_DOMAINS
  | Some (Document (JArray items)) => map py_str items
  | Some (Document _) => DEFAULT_DOMAINS
  | Some Unreadable => DEFAULT_DOMAINS
  end.

(** [print(s)] of a text, and the prompt [input] writes. *)
Definition say (s : str) (w : world) : world := add_stdout (show s) w.

(** The lines [menu_loop] prints at the top of each turn. *)
Definition menu_header (w : world) : world :=
  let w := say (LF :: py "=== Safe Browsing Guard ===") w in
  fold_left
    (fun w key => say (py "[" ++ key ++ py "] " ++ dict_get actions key) w)
    (sorted (map fst actions)) w.

(** [prompt_domain], on the line [input] returned. *)
Definition prompt_domain (typed : str) : str := lower (strip typed).

(** Option 3: the configured domains, sorted and without repetition. *)
Definition list_domains (domains : list str) (w : world) : world :=
  match sorted (set_of domains) with
  | [] => say (py "No domains configured.") w
  | unique =>
      fold_left (fun w d => say (py " - " ++ d) w) unique
                (say (py "Configured domains:") w)
  end.

(** The [while True] loop of [menu_loop], from the top of a turn:
    [stdin] holds the lines still to be typed, [domains] is the loop's
    variable. *)
Fixpoint menu_from (config_dir : string) (stdin : list str)
    (domains : list str) (config : option config_text) (w : world)
    : menu_end :=
  let w := say (py "Select an option: ") (menu_header w) in
  match stdin with
  | [] => MenuEnd w config domains [] (inl EOFError)
  | typed :: stdin1 =>
      let choice := strip typed in
      if str_eqb choice (py "1") then
        let w := say (py "Enter domain to block (e.g., badsite.com): ") w in
        match stdin1 with
        | [] => MenuEnd w config domains [] (inl EOFError)
        | typed2 :: stdin2 =>
            let domain := prompt_domain typed2 in
            match domain with
            | _ :: _ =>
                let domains := domains ++ [domain] in
                let config := save_config domains in
                let w := say (py "Added " ++ domain ++ py ".") w in
                menu_from config_dir stdin2 domains config w
            | [] =>
                let w := say (py "No domain entered.") w in
                menu_from config_dir stdin2 domains config w
            end
        end
      else if str_eqb choice (py "2") then
        let w := say (py "Enter domain to remove: ") w in
        match stdin1 with
        | [] => MenuEnd w config domains [] (inl EOFError)
        | typed2 :: stdin2 =>
            let domain := prompt_domain typed2 in
            if existsb (str_eqb domain) domains then
              let domains := filter (fun d => negb (str_eqb d domain)) domains in
              let config := save_config domains in
              let w := say (py "Removed " ++ domain ++ py ".") w in
              menu_from config_dir stdin2 domains config w
            else
              let w := say (py "Domain not found.") w in
              menu_from config_dir stdin2 domains config w
        end
      else if str_eqb choice (py "3") then
        menu_from config_dir stdin1 domains config (list_domains domains w)
      else if str_eqb choice (py "4") then
        match apply_changes config_dir domains w with
        | (w, inr _) => menu_from config_dir stdin1 domains config w
        | (w, inl e) => MenuEnd w config domains stdin1 (inl (Propagated e))
        end
      else if str_eqb choice (py "5") then
        match restore_backup config_dir w with
        | (w, inr _) => menu_from config_dir stdin1 domains config w
        | (w, inl e) => MenuEnd w config domains stdin1 (inl (Propagated e))
        end
      else if str_eqb choice (py "0") then
        MenuEnd (say (py "Goodbye.") w) config domains stdin1 (inr tt)
      else
        menu_from config_dir stdin1 domains config
                  (say (py "Invalid option. Please choose again.") w)
  end.

(** [menu_loop]: the configuration is loaded once, then the loop
    runs. *)
Definition menu_loop (config_dir : string) (stdin : list str)
    (config : option config_text) (w : world) : menu_end :=
  menu_from config_dir stdin (load_config config) config w.

End FrontEnd.

(** Two worlds with the same files and the same write quota: only the
    console may differ. *)
Definition same_files (w w' : world) : Prop :=
  hosts_file w' = hosts_file w
  /\ backup_file w' = backup_file w
  /\ hosts_quota w' = hosts_quota w.

(** Instances of the three parameters for running the menu on
    examples: [str.lower] on ASCII letters, a console that shows
    Latin-1 text, and a placeholder for [str] of other JSON items. *)
Definition lower_ascii (s : str) : str :=
  map (fun c => if ((65 <=? c) && (c <=? 90))%N then (c + 32)%N else c) s.
Definition show_latin1 (s : str) : string :=
  string_of_list_ascii (map ascii_of_N s).
Definition str_other_example (item : json) : str := py "?".
(* ================================================================== *)
(** * Facts about Python text *)
(* ================================================================== *)

Lemma str_eqb_eq (a b : str) : str_eqb a b = true <-> a = b.
Proof.
  revert b; induction a as [|x a IH]; intros [|y b]; simpl; split;
    try congruence; try reflexivity.
  - intros H. apply andb_true_iff in H as [Hx Hab].
    apply N.eqb_eq in Hx. apply IH in Hab. congruence.
  - intros H. injection H as -> ->.
    apply andb_true_iff; split; [apply N.eqb_refl | now apply IH].
Qed.

Lemma str_eqb_refl (a : str) : str_eqb a a = true.
Proof. now apply str_eqb_eq. Qed.

Lemma str_eqb_neq (a b : str) : str_eqb a b = false <-> a <> b.
Proof.
  split.
  - intros H E. apply str_eqb_eq in E. congruence.
  - intros H. destruct (str_eqb a b) eqn:E; [|reflexivity].
    apply str_eqb_eq in E. contradiction.
Qed.

Lemma str_ltb_irrefl (a : str) : str_ltb a a = false.
Proof.
  induction a as [|x a IH]; simpl; [reflexivity|].
  now rewrite N.ltb_irrefl, N.eqb_refl.
Qed.

Lemma str_lt_trans (a b c : str) : str_lt a b -> str_lt b c -> str_lt a c.
Proof.
  unfold str_lt. revert b c.
  induction a as [|x a IH]; intros [|y b] [|z c]; simpl; try congruence.
  destruct (N.ltb_spec x y) as [Hxy|Hxy].
  - intros _. destruct (N.ltb_spec y z) as [Hyz|Hyz].
    + intros _. destruct (N.ltb_spec x z); [reflexivity | lia].
    + destruct (N.eqb_spec y z) as [->|]; [|congruence].
      intros _. destruct (N.ltb_spec x z); [reflexivity | lia].
  - destruct (N.eqb_spec x y) as [->|]; [|congruence].
    intros Hab. destruct (N.ltb_spec y z) as [Hyz|Hyz]; [reflexivity|].
    destruct (N.eqb_spec y z) as [->|]; [|congruence].
    apply IH, Hab.
Qed.

Lemma str_lt_total (a b : str) : str_lt a b \/ a = b \/ str_lt b a.
Proof.
  unfold str_lt. revert b.
  induction a as [|x a IH]; intros [|y b]; simpl; auto.
  destruct (N.ltb_spec x y) as [Hxy|Hxy]; [now left|].
  destruct (N.eqb_spec x y) as [->|Hne].
  - rewrite N.ltb_irrefl, N.eqb_refl.
    destruct (IH b) as [H|[->|H]]; auto.
  - right; right. destruct (N.ltb_spec y x); [reflexivity | lia].
Qed.

Lemma str_lt_neq (a b : str) : str_lt a b -> a <> b.
Proof. intros H ->. unfold str_lt in H. now rewrite str_ltb_irrefl in H. Qed.

Lemma rstrip_LF (s : str) : rstrip (s ++ [LF]) = rstrip s.
Proof.
  induction s as [|c s IH]; simpl; [reflexivity|]. now rewrite IH.
Qed.

Lemma strip_LF (s : str) : strip (s ++ [LF]) = strip s.
Proof.
  unfold strip. induction s as [|c s IH]; [reflexivity|].
  cbn [app lstrip]. destruct (isspace c); [exact IH|].
  apply (rstrip_LF (c :: s)).
Qed.

(** A text that starts with a non-blank character keeps it under
    [strip]. *)
Lemma strip_head (c : char) (s : str) :
  isspace c = false -> exists r, strip (c :: s) = c :: r.
Proof.
  intros Hc. unfold strip. cbn [lstrip]. rewrite Hc. simpl.
  rewrite Hc. destruct (rstrip s); eauto.
Qed.

Lemma endswith_LF_app (s : str) : endswith_LF (s ++ [LF]) = true.
Proof.
  induction s as [|c s IH]; [reflexivity|].
  simpl. destruct (s ++ [LF]) eqn:E; [now destruct s | exact IH].
Qed.

Lemma endswith_LF_inv (s : str) :
  endswith_LF s = true -> exists body, s = body ++ [LF].
Proof.
  induction s as [|c s IH]; simpl; [discriminate|].
  destruct s as [|d s].
  - intros H. apply N.eqb_eq in H. subst. now exists [].
  - intros H. destruct (IH H) as [body ->]. now exists (c :: body).
Qed.

(* ================================================================== *)
(** * Reading a file back: [universal_newlines] and [split_lines] *)
(* ================================================================== *)

Lemma universal_newlines_id (s : str) :
  ~ In CR s -> universal_newlines s = s.
Proof.
  induction s as [|c s IH]; [reflexivity|].
  intros H. cbn [universal_newlines].
  destruct (N.eqb_spec c CR) as [->|_].
  - exfalso. apply H. now left.
  - f_equal. apply IH. intros Hin. apply H. now right.
Qed.

Lemma universal_newlines_CR_LF (s : str) :
  universal_newlines (CR :: LF :: s) = LF :: universal_newlines s.
Proof. reflexivity. Qed.

Lemma universal_newlines_CR (d : char) (s : str) :
  d <> LF -> universal_newlines (CR :: d :: s) = LF :: universal_newlines (d :: s).
Proof.
  intros H. change (universal_newlines (CR :: d :: s))
    with (LF :: if N.eqb d LF then universal_newlines s
                else universal_newlines (d :: s)).
  destruct (N.eqb_spec d LF); [contradiction | reflexivity].
Qed.

Lemma universal_newlines_other (c : char) (s : str) :
  c <> CR -> universal_newlines (c :: s) = c :: universal_newlines s.
Proof.
  intros H. change (universal_newlines (c :: s))
    with (if N.eqb c CR
          then LF :: match s with
                     | d :: s'' => if N.eqb d LF then universal_newlines s''
                                   else universal_newlines s
                     | [] => []
                     end
          else c :: universal_newlines s).
  destruct (N.eqb_spec c CR); [contradiction | reflexivity].
Qed.

Lemma universal_newlines_no_CR_aux (n : nat) :
  forall s, List.length s <= n -> ~ In CR (universal_newlines s).
Proof.
  induction n as [|n IH]; intros [|c s] Hlen; cbn [List.length] in Hlen;
    try (intros []); try lia.
  destruct (N.eq_dec c CR) as [->|Hc].
  - destruct s as [|d s]; [intros [H|[]]; discriminate|].
    destruct (N.eq_dec d LF) as [->|Hd].
    + rewrite universal_newlines_CR_LF.
      intros [H|H]; [discriminate|]. revert H. apply IH.
      cbn [List.length] in Hlen. lia.
    + rewrite universal_newlines_CR by exact Hd.
      intros [H|H]; [discriminate|]. revert H. apply IH. lia.
  - rewrite universal_newlines_other by exact Hc.
    intros [H|H]; [congruence|]. revert H. apply IH. lia.
Qed.

Lemma universal_newlines_no_CR (s : str) : ~ In CR (universal_newlines s).
Proof. apply (universal_newlines_no_CR_aux (n := List.length s)). lia. Qed.

Lemma split_lines_text (s : str) : text (split_lines s) = s.
Proof.
  unfold text. induction s as [|c s IH]; [reflexivity|].
  cbn [split_lines]. destruct (N.eqb c LF).
  - simpl. now rewrite IH.
  - destruct (split_lines s) as [|l ls]; simpl in *; now rewrite <- IH.
Qed.

Lemma terminated_LF : terminated [LF].
Proof. exists []. split; [reflexivity | intros []]. Qed.

Lemma terminated_cons (c : char) (l : str) :
  c <> LF -> terminated l -> terminated (c :: l).
Proof.
  intros Hc (body & -> & Hb). exists (c :: body). split; [reflexivity|].
  intros [H|H]; [congruence | contradiction].
Qed.

Lemma terminated_app_LF (body : str) : ~ In LF body -> terminated (body ++ [LF]).
Proof. intros H. now exists body. Qed.

Lemma split_lines_wf (s : str) : lines_wf (split_lines s).
Proof.
  induction s as [|c s IH]; [constructor|].
  cbn [split_lines]. destruct (N.eqb_spec c LF) as [->|Hc].
  - constructor; [apply terminated_LF | exact IH].
  - destruct (split_lines s) as [|l ls].
    + constructor; [discriminate | intros [H|[]]; congruence].
    + inversion IH as [|l' Hne Hno|l' ls' Ht Hwf]; subst.
      * constructor; [discriminate|]. intros [H|H]; [congruence | contradiction].
      * constructor; [now apply terminated_cons | exact Hwf].
Qed.

Lemma split_lines_line (body rest : str) :
  ~ In LF body ->
  split_lines (body ++ LF :: rest) = (body ++ [LF]) :: split_lines rest.
Proof.
  induction body as [|c body IH]; intros H; [reflexivity|].
  cbn [app split_lines]. destruct (N.eqb_spec c LF) as [->|_].
  - exfalso. apply H. now left.
  - rewrite IH; [reflexivity|]. intros Hin. apply H. now right.
Qed.

(** Lines that are all terminated are read back as they were
    written. *)
Lemma split_lines_terminated (lines : list str) :
  Forall terminated lines -> split_lines (text lines) = lines.
Proof.
  unfold text. induction 1 as [|l ls (body & -> & Hb) _ IH]; [reflexivity|].
  simpl. rewrite <- app_assoc. simpl.
  rewrite split_lines_line by exact Hb. now rewrite IH.
Qed.

Lemma text_app (a b : list str) : text (a ++ b) = text a ++ text b.
Proof. apply concat_app. Qed.

Lemma not_in_text (c : char) (lines : list str) :
  Forall (fun l => ~ In c l) lines -> ~ In c (text lines).
Proof.
  unfold text. induction 1 as [|l ls Hl _ IH]; simpl; [tauto|].
  rewrite in_app_iff. tauto.
Qed.

Lemma text_not_in (c : char) (lines : list str) :
  ~ In c (text lines) -> Forall (fun l => ~ In c l) lines.
Proof.
  unfold text. induction lines as [|l ls IH]; simpl; [constructor|].
  rewrite in_app_iff. intros H. constructor; tauto.
Qed.

Lemma readlines_no_CR (c : str) : Forall (fun l => ~ In CR l) (readlines c).
Proof.
  unfold readlines. apply text_not_in. rewrite split_lines_text.
  apply universal_newlines_no_CR.
Qed.

Lemma readlines_wf (c : str) : lines_wf (readlines c).
Proof. apply split_lines_wf. Qed.

(** A text written as terminated lines without CR is read back as
    those lines. *)
Lemma readlines_text (lines : list str) :
  Forall terminated lines -> Forall (fun l => ~ In CR l) lines ->
  readlines (text lines) = lines.
Proof.
  intros Ht Hc. unfold readlines.
  rewrite universal_newlines_id by now apply not_in_text.
  now apply split_lines_terminated.
Qed.

(* ================================================================== *)
(** * The write phase's line feed *)
(* ================================================================== *)

Lemma endswith_LF_In (s : str) : endswith_LF s = true -> In LF s.
Proof.
  intros H. destruct (endswith_LF_inv _ H) as [body ->].
  apply in_or_app. right. now left.
Qed.

Lemma needs_newline_cons (l l' : str) (ls : list str) :
  needs_newline (l :: l' :: ls) = needs_newline (l' :: ls).
Proof. reflexivity. Qed.

Lemma normalise_cons (l l' : str) (ls : list str) :
  normalise (l :: l' :: ls) = l :: normalise (l' :: ls).
Proof.
  unfold normalise. rewrite needs_newline_cons.
  destruct (needs_newline (l' :: ls)); reflexivity.
Qed.

Lemma normalise_terminated (lines : list str) :
  lines_wf lines -> Forall terminated (normalise lines).
Proof.
  induction 1 as [|l Hne Hno|l ls Ht Hwf IH].
  - constructor.
  - unfold normalise, needs_newline. cbn [last removelast].
    destruct (endswith_LF l) eqn:E.
    + exfalso. now apply Hno, endswith_LF_In.
    + simpl. constructor; [now apply terminated_app_LF | constructor].
  - destruct ls as [|l' ls].
    + unfold normalise, needs_newline. cbn [last].
      destruct Ht as (body & -> & Hb). rewrite endswith_LF_app. simpl.
      constructor; [now apply terminated_app_LF | constructor].
    + rewrite normalise_cons. now constructor.
Qed.

Lemma text_normalise (lines : list str) :
  text (normalise lines) =
  text lines ++ (if needs_newline lines then [LF] else []).
Proof.
  unfold text. induction lines as [|l ls IH]; [reflexivity|].
  destruct ls as [|l' ls].
  - unfold normalise. destruct (needs_newline [l]); simpl;
      now rewrite ?app_nil_r.
  - rewrite normalise_cons, needs_newline_cons. simpl in *.
    rewrite IH. now rewrite !app_assoc.
Qed.

Lemma needs_newline_terminated (lines : list str) :
  Forall terminated lines -> needs_newline lines = false.
Proof.
  induction 1 as [|l ls (body & -> & _) Hls IH]; [reflexivity|].
  destruct ls as [|l' ls].
  - unfold needs_newline. cbn [last]. now rewrite endswith_LF_app.
  - now rewrite needs_newline_cons.
Qed.

Lemma normalise_fixed (lines : list str) :
  Forall terminated lines -> normalise lines = lines.
Proof.
  intros H. unfold normalise. now rewrite needs_newline_terminated.
Qed.

Lemma payload_normalise (unmanaged managed : list str) :
  payload unmanaged managed = text (normalise unmanaged ++ managed).
Proof.
  unfold payload. rewrite text_app, text_normalise. now rewrite <- app_assoc.
Qed.

Lemma is_sentinel_LF (l : str) : is_sentinel (l ++ [LF]) = is_sentinel l.
Proof. unfold is_sentinel, is_begin, is_end. now rewrite strip_LF. Qed.

Lemma normalise_foreign (lines : list str) :
  Forall foreign_line lines -> Forall foreign_line (normalise lines).
Proof.
  induction 1 as [|l ls Hl Hls IH]; [constructor|].
  destruct ls as [|l' ls].
  - unfold normalise. destruct (needs_newline [l]); simpl.
    + constructor; [|constructor]. unfold foreign_line in *.
      now rewrite is_sentinel_LF.
    + now constructor.
  - rewrite normalise_cons. now constructor.
Qed.

(* ================================================================== *)
(** * The scanner *)
(* ================================================================== *)

Lemma strip_fold (lines cleaned : list str) (skipping : bool) :
  fst (fold_left strip_step lines (cleaned, skipping))
  = cleaned ++ strip_loop skipping lines.
Proof.
  revert cleaned skipping.
  induction lines as [|line rest IH]; intros cleaned skipping.
  - simpl. now rewrite app_nil_r.
  - cbn [fold_left strip_loop]. unfold strip_step at 2.
    fold (is_begin line). fold (is_end line).
    destruct (is_begin line); [apply IH|].
    destruct (is_end line); [apply IH|].
    destruct skipping; cbn [negb].
    + apply IH.
    + rewrite IH, <- app_assoc. reflexivity.
Qed.

Lemma strip_managed_block_loop (lines : list str) :
  strip_managed_block lines = strip_loop false lines.
Proof. unfold strip_managed_block. now rewrite strip_fold. Qed.

Lemma foreign_line_inv (l : str) :
  foreign_line l <-> is_begin l = false /\ is_end l = false.
Proof. unfold foreign_line, is_sentinel. apply orb_false_iff. Qed.

(** Whatever the scanner keeps is foreign. *)
Lemma strip_loop_foreign (skipping : bool) (lines : list str) :
  Forall foreign_line (strip_loop skipping lines).
Proof.
  revert skipping. induction lines as [|l ls IH]; intros skipping;
    [constructor|].
  cbn [strip_loop]. destruct (is_begin l) eqn:Eb; [apply IH|].
  destruct (is_end l) eqn:Ee; [apply IH|].
  destruct skipping; cbn [negb]; [apply IH|].
  constructor; [now apply foreign_line_inv | apply IH].
Qed.

(** Whatever the scanner keeps was in its input, and properties of all
    input lines hold of the kept ones. *)
Lemma strip_loop_Forall (P : str -> Prop) (skipping : bool) (lines : list str) :
  Forall P lines -> Forall P (strip_loop skipping lines).
Proof.
  intros H. revert skipping.
  induction H as [|l ls Hl _ IH]; intros skipping; [constructor|].
  cbn [strip_loop]. destruct (is_begin l); [apply IH|].
  destruct (is_end l); [apply IH|].
  destruct skipping; cbn [negb]; [apply IH|]. now constructor.
Qed.

Lemma strip_loop_wf (skipping : bool) (lines : list str) :
  lines_wf lines -> lines_wf (strip_loop skipping lines).
Proof.
  intros H. revert skipping.
  induction H as [|l Hne Hno|l ls Ht _ IH]; intros skipping.
  - constructor.
  - cbn [strip_loop]. destruct (is_begin l); [constructor|].
    destruct (is_end l); [constructor|].
    destruct skipping; cbn [negb]; now constructor.
  - cbn [strip_loop]. destruct (is_begin l); [apply IH|].
    destruct (is_end l); [apply IH|].
    destruct skipping; cbn [negb]; [apply IH|]. now constructor.
Qed.

(** Foreign lines met while not skipping are kept, in order. *)
Lemma strip_loop_foreign_prefix (kept rest : list str) :
  Forall foreign_line kept ->
  strip_loop false (kept ++ rest) = kept ++ strip_loop false rest.
Proof.
  induction 1 as [|l ls Hl _ IH]; [reflexivity|].
  apply foreign_line_inv in Hl as [Hb He].
  cbn [app strip_loop]. rewrite Hb, He. cbn [negb]. now rewrite IH.
Qed.

(** Lines met while skipping are dropped up to the next end sentinel
    line. *)
Lemma strip_loop_skip (inner rest : list str) :
  Forall (fun l => is_end l = false) inner ->
  strip_loop true (inner ++ rest) = strip_loop true rest.
Proof.
  induction 1 as [|l ls Hl _ IH]; [reflexivity|].
  cbn [app strip_loop]. rewrite Hl. cbn [negb].
  destruct (is_begin l); exact IH.
Qed.

Lemma strip_loop_end (skipping : bool) (e : str) (rest : list str) :
  is_begin e = false -> is_end e = true ->
  strip_loop skipping (e :: rest) = strip_loop false rest.
Proof. intros Hb He. cbn [strip_loop]. now rewrite Hb, He. Qed.

Lemma strip_loop_segment (s : segment) (rest : list str) :
  segment_ok s ->
  strip_loop false (segment_lines s ++ rest)
  = segment_foreign s ++ strip_loop false rest.
Proof.
  destruct s as [l|b inner e]; cbn [segment_ok segment_lines segment_foreign].
  - intros Hl. now apply (strip_loop_foreign_prefix (kept := [l])); constructor.
  - intros (Hb & Hin & Heb & Hee).
    cbn [app strip_loop]. rewrite Hb, <- app_assoc.
    rewrite strip_loop_skip by exact Hin.
    now apply strip_loop_end.
Qed.


(** Foreign lines alone pass the scanner unchanged. *)
Lemma strip_loop_all_foreign (lines : list str) :
  Forall foreign_line lines -> strip_loop false lines = lines.
Proof.
  intros H. rewrite <- (app_nil_r lines) at 1.
  rewrite strip_loop_foreign_prefix by exact H. simpl. apply app_nil_r.
Qed.

(** A sentinel line never survives, whatever the loop's flag. *)
Lemma strip_loop_drops_sentinels (skipping : bool) (lines : list str) (l : str) :
  In l (strip_loop skipping lines) -> is_begin l = false /\ is_end l = false.
Proof.
  intros H. apply foreign_line_inv.
  pose proof (strip_loop_foreign skipping lines) as HF.
  rewrite Forall_forall in HF. now apply HF.
Qed.

(* ================================================================== *)
(** * Sorting and de-duplication *)
(* ================================================================== *)

Lemma existsb_str_eqb (x : str) (xs : list str) :
  existsb (str_eqb x) xs = true <-> In x xs.
Proof.
  rewrite existsb_exists. split.
  - intros (y & Hy & E). apply str_eqb_eq in E. now subst.
  - intros H. exists x. split; [exact H | apply str_eqb_refl].
Qed.

Lemma set_of_In (xs : list str) (x : str) : In x (set_of xs) <-> In x xs.
Proof.
  induction xs as [|y ys IH]; [reflexivity|].
  cbn [set_of]. destruct (existsb (str_eqb y) ys) eqn:E.
  - apply existsb_str_eqb in E. rewrite IH. simpl.
    split; [tauto|]. intros [->|H]; assumption.
  - simpl. now rewrite IH.
Qed.

Lemma set_of_NoDup (xs : list str) : NoDup (set_of xs).
Proof.
  induction xs as [|y ys IH]; [constructor|].
  cbn [set_of]. destruct (existsb (str_eqb y) ys) eqn:E; [exact IH|].
  constructor; [|exact IH].
  rewrite set_of_In. intros H. apply existsb_str_eqb in H. congruence.
Qed.

Lemma insert_sorted_In (x y : str) (xs : list str) :
  In y (insert_sorted x xs) <-> y = x \/ In y xs.
Proof.
  induction xs as [|z zs IH]; simpl.
  - intuition congruence.
  - destruct (str_ltb z x); simpl; [rewrite IH|]; intuition congruence.
Qed.

Lemma sorted_In (xs : list str) (x : str) : In x (sorted xs) <-> In x xs.
Proof.
  induction xs as [|y ys IH]; [reflexivity|].
  cbn [sorted fold_right]. fold (sorted ys).
  rewrite insert_sorted_In, IH. simpl. intuition congruence.
Qed.

Lemma insert_sorted_strict (x : str) (xs : list str) :
  strictly_sorted xs -> ~ In x xs -> strictly_sorted (insert_sorted x xs).
Proof.
  unfold strictly_sorted.
  induction 1 as [|y ys Hys IH Hy]; intros Hx.
  - repeat constructor.
  - cbn [insert_sorted]. destruct (str_ltb y x) eqn:E.
    + constructor.
      * apply IH. intros H. apply Hx. now right.
      * apply Forall_forall. intros z Hz.
        apply insert_sorted_In in Hz as [->|Hz]; [exact E|].
        rewrite Forall_forall in Hy. now apply Hy.
    + assert (Hxy : str_lt x y).
      { destruct (str_lt_total x y) as [H|[H|H]]; [exact H| |].
        - exfalso. apply Hx. now left.
        - unfold str_lt in H. congruence. }
      constructor; [now constructor|].
      constructor; [exact Hxy|].
      eapply Forall_impl; [|exact Hy].
      intros z Hz. now apply str_lt_trans with y.
Qed.

Lemma sorted_strict (xs : list str) : NoDup xs -> strictly_sorted (sorted xs).
Proof.
  induction 1 as [|x xs Hx _ IH]; [constructor|].
  cbn [sorted fold_right]. fold (sorted xs).
  apply insert_sorted_strict; [exact IH|]. now rewrite sorted_In.
Qed.

Lemma strictly_sorted_NoDup (xs : list str) : strictly_sorted xs -> NoDup xs.
Proof.
  induction 1 as [|x xs _ IH Hx]; constructor; [|exact IH].
  intros H. rewrite Forall_forall in Hx. now apply (str_lt_neq (Hx _ H)).
Qed.

(** Two strictly increasing lists with the same elements are equal. *)
Lemma strictly_sorted_unique (xs ys : list str) :
  strictly_sorted xs -> strictly_sorted ys ->
  (forall d, In d xs <-> In d ys) -> xs = ys.
Proof.
  intros Hxs. revert ys.
  induction Hxs as [|x xs Hxs IH Hx]; intros ys Hys Heq.
  - destruct ys as [|y ys]; [reflexivity|].
    exfalso. apply (Heq y). now left.
  - destruct Hys as [|y ys Hys Hy].
    + exfalso. apply (Heq x). now left.
    + rewrite Forall_forall in Hx, Hy.
      assert (Exy : x = y).
      { destruct (proj1 (Heq x) (or_introl eq_refl)) as [E|Hin]; [now symmetry|].
        destruct (proj2 (Heq y) (or_introl eq_refl)) as [E|Hin']; [exact E|].
        exfalso. apply (str_lt_neq (str_lt_trans (Hx _ Hin') (Hy _ Hin))).
        reflexivity. }
      subst y. f_equal. apply IH; [exact Hys|].
      intros d. split; intros Hd.
      * destruct (proj1 (Heq d) (or_intror Hd)) as [E|H]; [|exact H].
        subst d. exfalso. now apply (str_lt_neq (Hx _ Hd)).
      * destruct (proj2 (Heq d) (or_intror Hd)) as [E|H]; [|exact H].
        subst d. exfalso. now apply (str_lt_neq (Hy _ Hd)).
Qed.

(** [sorted(set(domains))] does not depend on the order in which the
    set is iterated: every duplicate-free enumeration of the elements
    of [domains] sorts to the same list. *)
Lemma sorted_set_unique (domains enum : list str) :
  NoDup enum -> (forall d, In d enum <-> In d domains) ->
  sorted enum = sorted (set_of domains).
Proof.
  intros Hnd Hin. apply strictly_sorted_unique.
  - now apply sorted_strict.
  - apply sorted_strict, set_of_NoDup.
  - intros d. now rewrite !sorted_In, set_of_In, Hin.
Qed.

(* ================================================================== *)
(** * The renderer *)
(* ================================================================== *)

Lemma fold_left_append (f : str -> str) (ds block : list str) :
  fold_left (fun b d => b ++ [f d]) ds block = block ++ map f ds.
Proof.
  revert block. induction ds as [|d ds IH]; intros block; simpl.
  - now rewrite app_nil_r.
  - now rewrite IH, <- app_assoc.
Qed.

(** The rendered block is the begin sentinel line, the inner lines and
    the end sentinel line. *)
Lemma render_block_shape (domains : list str) :
  render_block domains
  = add_LF BEGIN_MARKER :: block_inner domains ++ [add_LF END_MARKER].
Proof.
  unfold render_block, block_inner.
  rewrite (fold_left_append safesearch_line).
  destruct domains as [|d ds].
  - rewrite map_app. reflexivity.
  - rewrite (fold_left_append custom_line).
    rewrite !map_app. cbn [map app]. rewrite <- !app_assoc. reflexivity.
Qed.

Lemma is_begin_BEGIN : is_begin (add_LF BEGIN_MARKER) = true.
Proof. reflexivity. Qed.

Lemma is_end_BEGIN : is_end (add_LF BEGIN_MARKER) = false.
Proof. reflexivity. Qed.

Lemma is_begin_END : is_begin (add_LF END_MARKER) = false.
Proof. reflexivity. Qed.

Lemma is_end_END : is_end (add_LF END_MARKER) = true.
Proof. reflexivity. Qed.

(** A line that starts with a digit one is no sentinel line. *)
Lemma digit_line_foreign (s : str) : foreign_line (49%N :: s).
Proof.
  destruct (@strip_head 49%N s eq_refl) as [r Hr].
  unfold foreign_line, is_sentinel, is_begin, is_end.
  unfold str, char in *. now rewrite Hr.
Qed.

Lemma custom_line_foreign (d : str) : foreign_line (add_LF (custom_line d)).
Proof. apply digit_line_foreign. Qed.

Lemma block_inner_foreign (domains : list str) :
  Forall foreign_line (block_inner domains).
Proof.
  unfold block_inner. apply Forall_map.
  constructor; [reflexivity|].
  apply Forall_app. split.
  - repeat constructor.
  - destruct domains as [|d ds]; [constructor|].
    constructor; [reflexivity|].
    apply Forall_map, Forall_forall. intros x _. apply custom_line_foreign.
Qed.

(** The rendered block is one managed segment, for every domain list. *)
Lemma render_block_segment (domains : list str) :
  render_block domains
  = segment_lines (Managed (add_LF BEGIN_MARKER) (block_inner domains)
                           (add_LF END_MARKER))
  /\ segment_ok (Managed (add_LF BEGIN_MARKER) (block_inner domains)
                         (add_LF END_MARKER)).
Proof.
  split; [apply render_block_shape|].
  cbn [segment_ok]. repeat split; try reflexivity.
  eapply Forall_impl; [|apply block_inner_foreign].
  intros l Hl. now apply foreign_line_inv in Hl.
Qed.

Lemma strip_loop_render_block (domains rest : list str) :
  strip_loop false (render_block domains ++ rest) = strip_loop false rest.
Proof.
  destruct (render_block_segment domains) as [-> Hok].
  now rewrite strip_loop_segment.
Qed.

(** ** Rendered blocks of domains without line breaks *)

Lemma line_break_freeb_spec (s : str) :
  line_break_freeb s = true <-> line_break_free s.
Proof.
  unfold line_break_freeb, line_break_free. rewrite forallb_forall. split.
  - intros H. split; intros Hin; apply H in Hin; now rewrite ?andb_false_r in Hin.
  - intros [HL HC] c Hc. apply andb_true_iff. split; apply negb_true_iff.
    + apply N.eqb_neq. intros ->. contradiction.
    + apply N.eqb_neq. intros ->. contradiction.
Qed.

Lemma line_break_free_app (a b : str) :
  line_break_free a -> line_break_free b -> line_break_free (a ++ b).
Proof.
  unfold line_break_free. rewrite !in_app_iff. tauto.
Qed.

Lemma add_LF_terminated (l : str) :
  line_break_free l -> terminated (add_LF l) /\ ~ In CR (add_LF l).
Proof.
  intros [HL HC]. split; [now apply terminated_app_LF|].
  unfold add_LF. rewrite in_app_iff. intros [H|[H|[]]];
    [contradiction | discriminate].
Qed.

Lemma custom_line_break_free (d : str) :
  line_break_free d -> line_break_free (custom_line d).
Proof.
  intros H. unfold custom_line.
  apply line_break_free_app; [now apply line_break_freeb_spec|].
  apply line_break_free_app; [now apply line_break_freeb_spec | exact H].
Qed.

Lemma render_block_lines (domains : list str) :
  Forall line_break_free domains ->
  Forall (fun l => terminated l /\ ~ In CR l) (render_block domains).
Proof.
  intros HD. rewrite render_block_shape.
  assert (Hfix : forall l, line_break_freeb l = true ->
                           terminated (add_LF l) /\ ~ In CR (add_LF l)).
  { intros l Hl. now apply add_LF_terminated, line_break_freeb_spec. }
  constructor; [now apply Hfix|].
  apply Forall_app. split; [|constructor; [now apply Hfix | constructor]].
  unfold block_inner. apply Forall_map.
  constructor; [now apply Hfix|].
  apply Forall_app. split.
  - repeat (constructor; [now apply Hfix|]). constructor.
  - destruct domains as [|d ds]; [constructor|].
    constructor; [now apply Hfix|].
    apply Forall_map, Forall_forall. intros x Hx.
    apply add_LF_terminated, custom_line_break_free.
    rewrite Forall_forall in HD. apply HD.
    now apply set_of_In, sorted_In.
Qed.

Lemma render_block_terminated (domains : list str) :
  Forall line_break_free domains -> Forall terminated (render_block domains).
Proof.
  intros H. eapply Forall_impl; [|apply (render_block_lines H)].
  intros l Hl. apply Hl.
Qed.

Lemma render_block_no_CR (domains : list str) :
  Forall line_break_free domains ->
  Forall (fun l => ~ In CR l) (render_block domains).
Proof.
  intros H. eapply Forall_impl; [|apply (render_block_lines H)].
  intros l Hl. apply Hl.
Qed.

(* ================================================================== *)
(** * Running the file operations *)
(* ================================================================== *)

Lemma world_eta (w : world) :
  World (hosts_file w) (backup_file w) (hosts_quota w) (stdout w) = w.
Proof. now destruct w. Qed.

Lemma bind_run (A B : Type) (m : IO A) (k : A -> IO B) (w : world) :
  bind m k w = match m w with
               | (w', inr a) => k a w'
               | (w', inl e) => (w', inl e)
               end.
Proof. reflexivity. Qed.

Lemma bind_assoc (A B C : Type) (m : IO A) (n : A -> IO B) (k : B -> IO C)
    (w : world) :
  bind (bind m n) k w = bind m (fun a => bind (n a) k) w.
Proof.
  rewrite !(bind_run m), (bind_run (bind m n)), (bind_run m).
  destruct (m w) as [w1 [e|a]]; reflexivity.
Qed.

(** Two writes in a row are one write of the two texts. *)
Lemma fwrite_fwrite (A : Type) (a b : str) (k : IO A) (w : world) :
  (fwrite a ;; fwrite b ;; k) w = (fwrite (a ++ b) ;; k) w.
Proof.
  unfold bind, fwrite, set_hosts, set_quota.
  destruct w as [h bk [q|] out]; cbn [hosts_file hosts_quota backup_file stdout].
  - rewrite length_app.
    destruct (Nat.leb_spec (List.length a) q) as [Ha|Ha];
      cbn [hosts_file hosts_quota backup_file stdout].
    + destruct (Nat.leb_spec (List.length b) (q - List.length a)) as [Hb|Hb];
        destruct (Nat.leb_spec (List.length a + List.length b) q); try lia.
      * rewrite <- app_assoc.
        now replace (q - List.length a - List.length b)
          with (q - (List.length a + List.length b)) by lia.
      * rewrite firstn_app, (firstn_all2 (n := q) a) by lia.
        now rewrite <- app_assoc.
    + destruct (Nat.leb_spec (List.length a + List.length b) q); try lia.
      rewrite firstn_app.
      replace (q - List.length a) with 0 by lia.
      now rewrite firstn_O, app_nil_r.
  - now rewrite <- app_assoc.
Qed.

(** [writelines] writes the text of its lines. *)
Lemma writelines_fwrite (A : Type) (lines : list str) (k : IO A) (w : world) :
  hosts_file w <> None ->
  (writelines lines ;; k) w = (fwrite (text lines) ;; k) w.
Proof.
  revert w. induction lines as [|l ls IH]; intros w Hw.
  - unfold bind, fwrite, ret, set_hosts, set_quota. cbn [writelines text concat].
    destruct w as [[h|] bk [q|] out]; cbn [hosts_file hosts_quota backup_file stdout] in *;
      try congruence; rewrite ?app_nil_r, ?Nat.sub_0_r; reflexivity.
  - cbn [text concat]. rewrite <- fwrite_fwrite.
    cbn [writelines]. rewrite bind_assoc, !(bind_run (fwrite l)).
    destruct (fwrite l w) as [w1 [e|[]]] eqn:E; [reflexivity|].
    apply (IH w1).
    unfold fwrite in E. destruct (hosts_quota w) as [q|].
    + destruct (List.length l <=? q); inversion E; discriminate.
    + inversion E. discriminate.
Qed.

Lemma fwrite_hosts (t : str) (w w' : world) (r : exn + unit) :
  fwrite t w = (w', r) -> hosts_file w' <> None.
Proof.
  unfold fwrite. destruct (hosts_quota w) as [q|].
  - destruct (List.length t <=? q); intros E; inversion E; discriminate.
  - intros E; inversion E; discriminate.
Qed.

Lemma fwrite_then (A : Type) (t : str) (k1 k2 : IO A) (w : world) :
  (forall w', hosts_file w' <> None -> k1 w' = k2 w') ->
  (fwrite t ;; k1) w = (fwrite t ;; k2) w.
Proof.
  intros H. rewrite !(bind_run (fwrite t)).
  destruct (fwrite t w) as [w1 [e|[]]] eqn:E; [reflexivity|].
  apply H. exact (fwrite_hosts _ _ E).
Qed.

(** The write phase of [apply_changes] is one write of the payload. *)
Lemma write_phase (A : Type) (unmanaged managed : list str) (k : IO A)
    (w : world) :
  hosts_file w <> None ->
  (writelines unmanaged ;;
   (if needs_newline unmanaged then fwrite [LF] else ret tt) ;;
   writelines managed ;; k) w
  = (fwrite (payload unmanaged managed) ;; k) w.
Proof.
  intros Hw. rewrite writelines_fwrite by exact Hw. unfold payload.
  rewrite <- fwrite_fwrite. apply fwrite_then. intros w1 Hw1.
  destruct (needs_newline unmanaged).
  - rewrite <- fwrite_fwrite. apply fwrite_then. intros w2 Hw2.
    now apply writelines_fwrite.
  - rewrite bind_run. cbn [ret].
    rewrite writelines_fwrite by exact Hw1. reflexivity.
Qed.

Lemma ensure_backup_run (w : world) :
  ensure_backup w
  = match backup_file w, hosts_file w with
    | Some _, _ => (w, inr tt)
    | None, Some c => (set_backup (Some c) w, inr tt)
    | None, None => (w, inl FileNotFoundError)
    end.
Proof.
  unfold ensure_backup, bind, backup_exists, copy2_hosts_to_backup, ret, raise.
  destruct (backup_file w); cbn [negb]; [reflexivity|].
  destruct (hosts_file w) eqn:E; rewrite ?E; reflexivity.
Qed.

(** What [apply_changes] does in a world whose hosts file exists. *)
Lemma apply_changes_run (config_dir : string) (domains : list str)
    (w : world) (c : str) :
  hosts_file w = Some c ->
  let p := payload (strip_managed_block (readlines c)) (render_block domains) in
  apply_changes config_dir domains w
  = match hosts_quota w with
    | None =>
        (World (Some p) (Some (backup_after w c)) None
               (stdout w ++ applied_messages config_dir), inr tt)
    | Some q =>
        if List.length p <=? q
        then (World (Some p) (Some (backup_after w c))
                    (Some (q - List.length p))
                    (stdout w ++ applied_messages config_dir), inr tt)
        else (World (Some (firstn q p)) (Some (backup_after w c)) (Some 0)
                    (stdout w), inl OSError)
    end.
Proof.
  intros Hc p. unfold apply_changes.
  rewrite bind_run, ensure_backup_run, Hc.
  set (w1 := World (Some c) (Some (backup_after w c)) (hosts_quota w) (stdout w)).
  assert (Hw1 : match backup_file w with
                | Some _ => (w, @inr exn unit tt)
                | None => (set_backup (Some c) w, inr tt)
                end = (w1, inr tt)).
  { unfold w1, backup_after, set_backup.
    destruct w as [h [b|] q out]; cbn in Hc |- *; now subst h. }
  rewrite Hw1. cbv beta iota. rewrite bind_run. unfold open_r_readlines.
  change (hosts_file w1) with (Some c). unfold ret at 1. cbv beta iota.
  rewrite bind_run. unfold open_w at 1. cbv beta iota.
  rewrite write_phase by discriminate. fold p.
  unfold bind, fwrite, flush_dns, print, set_hosts, set_quota, add_stdout, w1,
    applied_messages.
  cbn [hosts_file backup_file hosts_quota stdout app].
  destruct (hosts_quota w) as [q|].
  - destruct (List.length p <=? q);
      cbn [hosts_file backup_file hosts_quota stdout app];
      rewrite <- ?app_assoc; reflexivity.
  - cbn [hosts_file backup_file hosts_quota stdout app].
    rewrite <- ?app_assoc. reflexivity.
Qed.

(* ================================================================== *)
(** * Reading back what [apply_changes] wrote *)
(* ================================================================== *)

Lemma universal_newlines_app (a b : str) :
  ~ In CR a -> universal_newlines (a ++ b) = a ++ universal_newlines b.
Proof.
  induction a as [|x a IH]; intros H; [reflexivity|].
  cbn [app]. rewrite universal_newlines_other.
  - f_equal. apply IH. intros Hin. apply H. now right.
  - intros ->. apply H. now left.
Qed.

Lemma split_lines_app (lines : list str) (x : str) :
  Forall terminated lines ->
  split_lines (text lines ++ x) = lines ++ split_lines x.
Proof.
  unfold text. induction 1 as [|l ls (body & -> & Hb) _ IH]; [reflexivity|].
  cbn [concat app]. rewrite <- !app_assoc. cbn [app].
  rewrite split_lines_line by exact Hb. now rewrite IH.
Qed.

Lemma readlines_app (lines : list str) (x : str) :
  Forall terminated lines -> Forall (fun l => ~ In CR l) lines ->
  readlines (text lines ++ x) = lines ++ readlines x.
Proof.
  intros Ht Hc. unfold readlines.
  rewrite universal_newlines_app by now apply not_in_text.
  now apply split_lines_app.
Qed.

Lemma normalise_no_CR (lines : list str) :
  Forall (fun l => ~ In CR l) lines ->
  Forall (fun l => ~ In CR l) (normalise lines).
Proof.
  induction 1 as [|l ls Hl Hls IH]; [constructor|].
  destruct ls as [|l' ls].
  - unfold normalise. destruct (needs_newline [l]); cbn [removelast last app].
    + constructor; [|constructor]. rewrite in_app_iff.
      intros [H|[H|[]]]; [contradiction | discriminate].
    + now constructor.
  - rewrite normalise_cons. now constructor.
Qed.

Lemma normalise_app (kept more : list str) :
  Forall terminated kept -> normalise (kept ++ more) = kept ++ normalise more.
Proof.
  induction 1 as [|l ls Hl Hls IH]; [reflexivity|].
  destruct ls as [|l' ls].
  - destruct more as [|m more].
    + cbn [app]. rewrite (normalise_fixed (lines := [l])); [reflexivity|].
      now constructor.
    + cbn [app]. now rewrite normalise_cons.
  - cbn [app] in *. now rewrite normalise_cons, IH.
Qed.

(** The lines [apply_changes] writes back before the block: all
    terminated, all foreign, none with a CR. *)
Lemma kept_of_terminated (c : str) : Forall terminated (kept_of c).
Proof.
  unfold kept_of, unmanaged_of. rewrite strip_managed_block_loop.
  apply normalise_terminated, strip_loop_wf, readlines_wf.
Qed.

Lemma kept_of_foreign (c : str) : Forall foreign_line (kept_of c).
Proof.
  unfold kept_of, unmanaged_of. rewrite strip_managed_block_loop.
  apply normalise_foreign, strip_loop_foreign.
Qed.

Lemma kept_of_no_CR (c : str) : Forall (fun l => ~ In CR l) (kept_of c).
Proof.
  unfold kept_of, unmanaged_of. rewrite strip_managed_block_loop.
  apply normalise_no_CR, strip_loop_Forall, readlines_no_CR.
Qed.

Lemma payload_kept (c : str) (managed : list str) :
  payload (unmanaged_of c) managed = text (kept_of c) ++ text managed.
Proof. unfold kept_of. now rewrite payload_normalise, text_app. Qed.

(** Reading a patched file: the kept lines come back first, followed
    by whatever the text of the block reads as. *)
Lemma unmanaged_of_patched (c x : str) :
  unmanaged_of (text (kept_of c) ++ x) = kept_of c ++ unmanaged_of x.
Proof.
  unfold unmanaged_of at 1.
  rewrite readlines_app by (apply kept_of_terminated || apply kept_of_no_CR).
  rewrite strip_managed_block_loop, strip_loop_foreign_prefix
    by apply kept_of_foreign.
  now rewrite <- strip_managed_block_loop.
Qed.

Lemma kept_of_patched (c x : str) :
  kept_of (text (kept_of c) ++ x) = kept_of c ++ kept_of x.
Proof.
  unfold kept_of at 1. rewrite unmanaged_of_patched.
  apply normalise_app, kept_of_terminated.
Qed.

(** A block rendered from domains without line breaks reads back as
    itself, and the scanner removes it whole. *)
Lemma readlines_render_block (domains : list str) :
  Forall line_break_free domains ->
  readlines (text (render_block domains)) = render_block domains.
Proof.
  intros H. apply readlines_text;
    [now apply render_block_terminated | now apply render_block_no_CR].
Qed.

Lemma unmanaged_of_render_block (domains : list str) :
  Forall line_break_free domains ->
  unmanaged_of (text (render_block domains)) = [].
Proof.
  intros H. unfold unmanaged_of.
  rewrite readlines_render_block by exact H.
  rewrite strip_managed_block_loop.
  rewrite <- (app_nil_r (render_block domains)).
  now rewrite strip_loop_render_block.
Qed.

Lemma kept_of_render_block (domains : list str) :
  Forall line_break_free domains -> kept_of (text (render_block domains)) = [].
Proof.
  intros H. unfold kept_of. now rewrite unmanaged_of_render_block.
Qed.

(** One fault-free run of [apply_changes]. *)
Lemma apply_changes_ok (config_dir : string) (domains : list str)
    (w : world) (c : str) :
  hosts_file w = Some c -> hosts_quota w = None ->
  apply_changes config_dir domains w
  = (World (Some (text (kept_of c) ++ text (render_block domains)))
           (Some (backup_after w c)) None
           (stdout w ++ applied_messages config_dir), inr tt).
Proof.
  intros Hc Hq. rewrite (apply_changes_run config_dir domains w Hc), Hq.
  fold (unmanaged_of c). now rewrite payload_kept.
Qed.

(* ================================================================== *)
(** * The renderer's contract *)
(* ================================================================== *)

(** C5 (sorted, de-duplicated rendering).  For a non-empty domain list
    the rendered block is the begin sentinel line, the safe-search
    section, the custom comment, then one line [127.0.0.1 TAB domain]
    for each element of [sorted (set_of domains)], then the end sentinel
    line, every line ending in a line feed; and [sorted (set_of domains)]
    is strictly increasing in the lexicographic order (hence free of
    repetitions) and holds exactly the elements of [domains]. *)
Theorem render_block_sorted_dedup (domains : list str) :
  domains <> [] ->
  render_block domains
  = map add_LF
      ([BEGIN_MARKER; safesearch_comment]
       ++ map safesearch_line SAFESEARCH_DOMAINS
       ++ [custom_comment]
       ++ map (fun d => py "127.0.0.1" ++ [TAB] ++ d) (sorted (set_of domains))
       ++ [END_MARKER])
  /\ strictly_sorted (sorted (set_of domains))
  /\ NoDup (sorted (set_of domains))
  /\ (forall d, In d (sorted (set_of domains)) <-> In d domains).
Proof.
  intros Hne. split; [|split; [|split]].
  - unfold render_block. rewrite (fold_left_append safesearch_line).
    destruct domains as [|d ds]; [contradiction|].
    rewrite (fold_left_append custom_line). f_equal.
  - apply sorted_strict, set_of_NoDup.
  - apply strictly_sorted_NoDup, sorted_strict, set_of_NoDup.
  - intros d. now rewrite sorted_In, set_of_In.
Qed.

(** The spec's instance of C5: b.com, a.com, a.com renders a.com once,
    before b.com. *)
Lemma render_block_sorted_dedup_witness :
  [py "b.com"; py "a.com"; py "a.com"] <> []
  /\ sorted (set_of [py "b.com"; py "a.com"; py "a.com"])
     = [py "a.com"; py "b.com"]
  /\ render_block [py "b.com"; py "a.com"; py "a.com"]
     = map add_LF
         ([BEGIN_MARKER; safesearch_comment]
          ++ map safesearch_line SAFESEARCH_DOMAINS
          ++ [custom_comment]
          ++ [py "127.0.0.1" ++ [TAB] ++ py "a.com";
              py "127.0.0.1" ++ [TAB] ++ py "b.com"]
          ++ [END_MARKER]).
Proof.
  assert (Hne : [py "b.com"; py "a.com"; py "a.com"] <> []) by discriminate.
  split; [exact Hne|]. split; [reflexivity|].
  exact (proj1 (render_block_sorted_dedup Hne)).
Defined.

(** C8 (empty-set rendering).  For the empty domain list the rendered
    block is exactly the begin sentinel line, the safe-search comment,
    the six safe-search mappings in their hard-coded order and the end
    sentinel line; it holds neither the custom comment line nor any
    custom mapping line. *)
Theorem render_block_empty :
  render_block []
  = map add_LF
      [ py "# >>> SafeBrowsingGuard begin";
        py "# SafeSearch mappings -> 216.239.38.120";
        py "216.239.38.120" ++ [TAB] ++ py "google.com";
        py "216.239.38.120" ++ [TAB] ++ py "www.google.com";
        py "216.239.38.120" ++ [TAB] ++ py "www.google.co.uk";
        py "216.239.38.120" ++ [TAB] ++ py "www.google.ca";
        py "216.239.38.120" ++ [TAB] ++ py "youtube.com";
        py "216.239.38.120" ++ [TAB] ++ py "www.youtube.com";
        py "# <<< SafeBrowsingGuard end" ]
  /\ ~ In (add_LF custom_comment) (render_block [])
  /\ (forall d, ~ In (add_LF (custom_line d)) (render_block [])).
Proof.
  split; [reflexivity|]. split.
  - intros H. repeat (destruct H as [H|H]; [discriminate H|]). exact H.
  - intros d H. repeat (destruct H as [H|H]; [discriminate H|]). exact H.
Qed.

(* ================================================================== *)
(** * Backup and restore *)
(* ================================================================== *)

(** C6 (backup write-once).  [ensure_backup] leaves the world as it is
    when a backup exists; it copies the current hosts content when none
    exists; run a second time after a first successful run it changes
    nothing, and it leaves the backup alone whatever happened to the
    hosts file in between; [apply_changes], which starts with it, ends
    with the backup that [ensure_backup] settled, also when its write
    phase fails. *)
Theorem ensure_backup_write_once (w : world) :
  (forall b, backup_file w = Some b -> ensure_backup w = (w, inr tt))
  /\ (forall c, backup_file w = None -> hosts_file w = Some c ->
        ensure_backup w = (set_backup (Some c) w, inr tt))
  /\ (forall w1, ensure_backup w = (w1, inr tt) ->
        ensure_backup w1 = (w1, inr tt)
        /\ forall h, ensure_backup (set_hosts h w1) = (set_hosts h w1, inr tt))
  /\ (forall config_dir domains c, hosts_file w = Some c ->
        backup_file (fst (apply_changes config_dir domains w))
        = Some (backup_after w c)).
Proof.
  repeat split.
  - intros b Hb. now rewrite ensure_backup_run, Hb.
  - intros c Hb Hc. now rewrite ensure_backup_run, Hb, Hc.
  - rewrite ensure_backup_run in H. rewrite ensure_backup_run.
    destruct (backup_file w) as [b|] eqn:Hb.
    + inversion H; subst w1. now rewrite Hb.
    + destruct (hosts_file w) as [c|]; inversion H; subst w1. reflexivity.
  - intros h. rewrite ensure_backup_run in H. rewrite ensure_backup_run.
    destruct (backup_file w) as [b|] eqn:Hb.
    + inversion H; subst w1. cbn [set_hosts backup_file]. now rewrite Hb.
    + destruct (hosts_file w) as [c|]; inversion H; subst w1. reflexivity.
  - intros config_dir domains c Hc.
    rewrite (apply_changes_run config_dir domains w Hc).
    destruct (hosts_quota w) as [q|]; [|reflexivity].
    destruct (_ <=? q); reflexivity.
Qed.

Lemma ensure_backup_write_once_witness :
  let pristine := py "127.0.0.1 localhost" ++ [LF] in
  let w := World (Some pristine) None None [] in
  let w1 := World (Some pristine) (Some pristine) None [] in
  let patched := Some (pristine ++ text (render_block [py "bad.com"])) in
  ensure_backup w = (w1, inr tt)
  /\ ensure_backup w1 = (w1, inr tt)
  /\ ensure_backup (set_hosts patched w1) = (set_hosts patched w1, inr tt).
Proof.
  intros pristine w w1 patched.
  destruct (ensure_backup_write_once w) as (_ & Hcopy & Hagain & _).
  assert (Hfirst : ensure_backup w = (w1, inr tt))
    by exact (Hcopy pristine eq_refl eq_refl).
  destruct (Hagain w1 Hfirst) as [Hsecond Hlater].
  split; [exact Hfirst|]. split; [exact Hsecond | exact (Hlater patched)].
Defined.

(** C7 (restore without backup).  When no backup file exists,
    [restore_backup] returns normally, its only effect being the
    message "No backup found." on the console: the hosts file, the
    backup slot and the write quota are what they were. *)
Theorem restore_backup_without_backup (config_dir : string) (w : world) :
  backup_file w = None ->
  restore_backup config_dir w = (add_stdout "No backup found." w, inr tt)
  /\ hosts_file (fst (restore_backup config_dir w)) = hosts_file w
  /\ backup_file (fst (restore_backup config_dir w)) = None.
Proof.
  intros Hb.
  assert (E : restore_backup config_dir w
              = (add_stdout "No backup found." w, inr tt)).
  { unfold restore_backup, bind, backup_exists. now rewrite Hb. }
  rewrite E. repeat split. exact Hb.
Qed.

Lemma restore_backup_without_backup_witness :
  let w := World (Some (py "127.0.0.1 localhost" ++ [LF])) None None [] in
  backup_file w = None
  /\ restore_backup "/opt/guard" w
     = (World (Some (py "127.0.0.1 localhost" ++ [LF])) None None
              ["No backup found."%string], inr tt).
Proof.
  intros w. split; [reflexivity|].
  exact (proj1 (@restore_backup_without_backup "/opt/guard" w eq_refl)).
Defined.

(* ================================================================== *)
(** * The scanner's contract *)
(* ================================================================== *)

Lemma is_end_not_begin (l : str) : is_end l = true -> is_begin l = false.
Proof.
  unfold is_end, is_begin. intros H. apply str_eqb_eq in H. now rewrite H.
Qed.

(** C10 (stray end sentinel).  A line whose trimmed form is the end
    sentinel is never among the lines [strip_managed_block] keeps, and
    every line it keeps is foreign (its trimmed form is neither
    sentinel); in particular a stray end sentinel line among foreign
    lines, with no begin sentinel before it, is dropped while the
    foreign lines around it are kept, so after [apply_changes] the hosts
    file holds those foreign lines and the new block, without the stray
    line. *)
Theorem stray_end_sentinel_dropped :
  (forall lines l, is_end l = true -> ~ In l (strip_managed_block lines))
  /\ (forall lines l, In l (strip_managed_block lines) -> foreign_line l)
  /\ (forall before after e,
        Forall foreign_line before -> Forall foreign_line after ->
        is_end e = true ->
        strip_managed_block (before ++ e :: after) = before ++ after)
  /\ (forall config_dir domains w c before after e,
        hosts_file w = Some c -> hosts_quota w = None ->
        readlines c = before ++ e :: after ->
        Forall foreign_line before -> Forall foreign_line after ->
        is_end e = true ->
        exists w',
          apply_changes config_dir domains w = (w', inr tt)
          /\ hosts_file w'
             = Some (text (normalise (before ++ after))
                     ++ text (render_block domains))).
Proof.
  assert (Hdrop : forall before after e,
             Forall foreign_line before -> Forall foreign_line after ->
             is_end e = true ->
             strip_managed_block (before ++ e :: after) = before ++ after).
  { intros before after e Hb Ha He.
    rewrite strip_managed_block_loop, strip_loop_foreign_prefix by exact Hb.
    rewrite strip_loop_end by (try apply is_end_not_begin; exact He).
    now rewrite strip_loop_all_foreign. }
  split; [|split; [|split]].
  - intros lines l He Hin. rewrite strip_managed_block_loop in Hin.
    apply strip_loop_drops_sentinels in Hin. destruct Hin. congruence.
  - intros lines l Hin. rewrite strip_managed_block_loop in Hin.
    now apply foreign_line_inv, (strip_loop_drops_sentinels false lines).
  - exact Hdrop.
  - intros config_dir domains w c before after e Hc Hq Hr Hb Ha He.
    eexists. split; [exact (apply_changes_ok config_dir domains w Hc Hq)|].
    cbn [hosts_file]. unfold kept_of, unmanaged_of.
    now rewrite Hr, Hdrop.
Qed.

Lemma stray_end_sentinel_dropped_witness :
  let c := py "10.0.0.1 a" ++ [LF] ++ END_MARKER ++ [LF] ++ py "10.0.0.2 b" ++ [LF] in
  readlines c = [py "10.0.0.1 a" ++ [LF]] ++ (END_MARKER ++ [LF]) :: [py "10.0.0.2 b" ++ [LF]]
  /\ exists w',
       apply_changes "/opt/guard" [] (World (Some c) None None []) = (w', inr tt)
       /\ hosts_file w'
          = Some (text (normalise ([py "10.0.0.1 a" ++ [LF]] ++ [py "10.0.0.2 b" ++ [LF]]))
                  ++ text (render_block [])).
Proof.
  intros c. split; [reflexivity|].
  apply (proj2 (proj2 (proj2 stray_end_sentinel_dropped))
           "/opt/guard"%string [] (World (Some c) None None []) c
           [py "10.0.0.1 a" ++ [LF]] [py "10.0.0.2 b" ++ [LF]] (END_MARKER ++ [LF]));
    try reflexivity; repeat constructor.
Defined.

(* ================================================================== *)
(** * The patcher's contract *)
(* ================================================================== *)

(** C9 (end-to-end scenario).  In a fault-free world whose hosts file
    is the single line "1.2.3.4 other.example", [apply_changes] with
    the one domain bad.com returns normally and leaves in the hosts
    file that line, the begin sentinel, the safe-search comment and the
    six fixed mappings, the custom comment, the line for bad.com and the
    end sentinel, each ending in a line feed. *)
Theorem apply_changes_scenario (config_dir : string) (w : world) :
  hosts_file w = Some (py "1.2.3.4 other.example" ++ [LF]) ->
  hosts_quota w = None ->
  exists w',
    apply_changes config_dir [py "bad.com"] w = (w', inr tt)
    /\ hosts_file w'
       = Some (text (map add_LF
            [ py "1.2.3.4 other.example";
              py "# >>> SafeBrowsingGuard begin";
              py "# SafeSearch mappings -> 216.239.38.120";
              py "216.239.38.120" ++ [TAB] ++ py "google.com";
              py "216.239.38.120" ++ [TAB] ++ py "www.google.com";
              py "216.239.38.120" ++ [TAB] ++ py "www.google.co.uk";
              py "216.239.38.120" ++ [TAB] ++ py "www.google.ca";
              py "216.239.38.120" ++ [TAB] ++ py "youtube.com";
              py "216.239.38.120" ++ [TAB] ++ py "www.youtube.com";
              py "# Custom blocked domains -> 127.0.0.1";
              py "127.0.0.1" ++ [TAB] ++ py "bad.com";
              py "# <<< SafeBrowsingGuard end" ])).
Proof.
  intros Hc Hq. eexists.
  split; [exact (apply_changes_ok config_dir [py "bad.com"] w Hc Hq)|].
  cbn [hosts_file]. reflexivity.
Qed.

Lemma apply_changes_scenario_witness :
  exists w',
    apply_changes "/opt/guard" [py "bad.com"]
      (World (Some (py "1.2.3.4 other.example" ++ [LF])) None None [])
    = (w', inr tt)
    /\ hosts_file w'
       = Some (text (map add_LF
            [ py "1.2.3.4 other.example";
              py "# >>> SafeBrowsingGuard begin";
              py "# SafeSearch mappings -> 216.239.38.120";
              py "216.239.38.120" ++ [TAB] ++ py "google.com";
              py "216.239.38.120" ++ [TAB] ++ py "www.google.com";
              py "216.239.38.120" ++ [TAB] ++ py "www.google.co.uk";
              py "216.239.38.120" ++ [TAB] ++ py "www.google.ca";
              py "216.239.38.120" ++ [TAB] ++ py "youtube.com";
              py "216.239.38.120" ++ [TAB] ++ py "www.youtube.com";
              py "# Custom blocked domains -> 127.0.0.1";
              py "127.0.0.1" ++ [TAB] ++ py "bad.com";
              py "# <<< SafeBrowsingGuard end" ])).
Proof.
  apply (@apply_changes_scenario "/opt/guard"
           (World (Some (py "1.2.3.4 other.example" ++ [LF])) None None []));
    reflexivity.
Defined.



(** A hosts file of foreign lines only: one run of [apply_changes]
    leaves those lines, the last one completed with a line feed, and
    then the block. *)
Lemma foreign_only_preserved (config_dir : string) (domains : list str)
    (w : world) (c : str) :
  hosts_file w = Some c -> hosts_quota w = None ->
  Forall foreign_line (readlines c) ->
  apply_changes config_dir domains w
  = (World (Some (text (normalise (readlines c)) ++ text (render_block domains)))
           (Some (backup_after w c)) None
           (stdout w ++ applied_messages config_dir), inr tt).
Proof.
  intros Hc Hq Hf. rewrite (apply_changes_ok config_dir domains w Hc Hq).
  unfold kept_of, unmanaged_of.
  now rewrite strip_managed_block_loop, strip_loop_all_foreign.
Qed.




(** ** Counting sentinel lines *)










(** C1, as amended (idempotence).  For every hosts file and every
    domain list whose entries hold no line break (no LF, no CR), two
    fault-free runs of [apply_changes] in a row both return normally and
    the hosts file after the second run is the hosts file after the
    first; so is the backup. *)
Theorem apply_changes_idempotent (config_dir : string) (domains : list str)
    (w : world) (c : str) :
  hosts_file w = Some c -> hosts_quota w = None ->
  Forall line_break_free domains ->
  exists w1 w2,
    apply_changes config_dir domains w = (w1, inr tt)
    /\ apply_changes config_dir domains w1 = (w2, inr tt)
    /\ hosts_file w2 = hosts_file w1
    /\ backup_file w2 = backup_file w1.
Proof.
  intros Hc Hq Hd.
  set (c1 := text (kept_of c) ++ text (render_block domains)).
  set (w1 := World (Some c1) (Some (backup_after w c)) None
                   (stdout w ++ applied_messages config_dir)).
  exists w1. eexists.
  split; [exact (apply_changes_ok config_dir domains w Hc Hq)|].
  split; [exact (apply_changes_ok config_dir domains w1 eq_refl eq_refl)|].
  cbn [hosts_file backup_file]. split; [|reflexivity].
  unfold c1 at 1. rewrite kept_of_patched, (kept_of_render_block Hd).
  now rewrite app_nil_r.
Qed.

Lemma apply_changes_idempotent_witness :
  exists w1 w2,
    apply_changes "/opt/guard" [py "b.com"; py "a.com"]
      (World (Some (py "10.0.0.1 a" ++ [CR; LF] ++ py "10.0.0.2 b")) None None [])
    = (w1, inr tt)
    /\ apply_changes "/opt/guard" [py "b.com"; py "a.com"] w1 = (w2, inr tt)
    /\ hosts_file w2 = hosts_file w1
    /\ backup_file w2 = backup_file w1.
Proof.
  apply (@apply_changes_idempotent "/opt/guard" [py "b.com"; py "a.com"]
           (World (Some (py "10.0.0.1 a" ++ [CR; LF] ++ py "10.0.0.2 b"))
                  None None [])
           (py "10.0.0.1 a" ++ [CR; LF] ++ py "10.0.0.2 b"));
    try reflexivity.
  repeat constructor; now apply line_break_freeb_spec.
Defined.

(** C1 as stated fails: with a domain entry that holds a line break
    followed by the text of an end sentinel and more text, the second
    run takes that text for a foreign line and keeps it, so the two
    files differ. *)
Lemma second_apply_differs :
  let d := py "x" ++ [LF] ++ END_MARKER ++ [LF] ++ py "y" in
  let w := World (Some (py "1.2.3.4 other.example" ++ [LF])) None None [] in
  let r1 := apply_changes "/opt/guard" [d] w in
  let r2 := apply_changes "/opt/guard" [d] (fst r1) in
  snd r1 = inr tt /\ snd r2 = inr tt
  /\ hosts_file (fst r1)
     = Some (py "1.2.3.4 other.example" ++ [LF] ++ text (render_block [d]))
  /\ hosts_file (fst r2)
     = Some (py "1.2.3.4 other.example" ++ [LF] ++ py "y" ++ [LF]
             ++ text (render_block [d]))
  /\ hosts_file (fst r2) <> hosts_file (fst r1).
Proof.
  intros d w r1 r2. repeat split; try reflexivity.
  vm_compute. discriminate.
Qed.

(** C3, as amended (the write phase).  [apply_changes] rewrites the
    hosts file in place.  When the device fails after [q] characters,
    fewer than the whole result, [apply_changes] raises [OSError]; the
    hosts file then holds exactly the first [q] characters of the
    result, nothing is printed, and the backup is the one
    [ensure_backup] settled.  When the device takes the whole result,
    [apply_changes] returns normally and the hosts file holds it. *)
Theorem write_failure_leaves_prefix (config_dir : string) (domains : list str)
    (w : world) (c : str) (q : nat) :
  hosts_file w = Some c -> hosts_quota w = Some q ->
  let p := payload (unmanaged_of c) (render_block domains) in
  exists w',
    backup_file w' = Some (backup_after w c)
    /\ (q < List.length p ->
        apply_changes config_dir domains w = (w', inl OSError)
        /\ hosts_file w' = Some (firstn q p)
        /\ stdout w' = stdout w)
    /\ (List.length p <= q ->
        apply_changes config_dir domains w = (w', inr tt)
        /\ hosts_file w' = Some p).
Proof.
  intros Hc Hq p.
  exists (fst (apply_changes config_dir domains w)).
  rewrite (apply_changes_run config_dir domains w Hc), Hq.
  fold (unmanaged_of c). fold p.
  destruct (Nat.leb_spec (List.length p) q) as [Hle|Hlt]; cbn [fst].
  - repeat split; intros; try reflexivity; lia.
  - repeat split; intros; try reflexivity; lia.
Qed.

Lemma write_failure_leaves_prefix_witness :
  let w := World (Some (py "1.2.3.4 other.example" ++ [LF]))
                 (Some (py "127.0.0.1 localhost" ++ [LF])) (Some 7) [] in
  exists w',
    apply_changes "/opt/guard" [py "bad.com"] w = (w', inl OSError)
    /\ hosts_file w' = Some (py "1.2.3.4")
    /\ backup_file w' = Some (py "127.0.0.1 localhost" ++ [LF]).
Proof.
  intros w.
  destruct (@write_failure_leaves_prefix "/opt/guard" [py "bad.com"] w
              (py "1.2.3.4 other.example" ++ [LF]) 7 eq_refl eq_refl)
    as (w' & Hb & Hfail & _).
  exists w'. destruct Hfail as (Hrun & Hh & _).
  - vm_compute. lia.
  - split; [exact Hrun|]. split; [exact Hh | exact Hb].
Defined.

(** C3 as stated fails: a write phase that fails at its start leaves
    the hosts file empty; the foreign line it held is in neither file. *)
Lemma write_failure_loses_content :
  let line := py "1.2.3.4 other.example" ++ [LF] in
  let w := World (Some line) (Some (py "127.0.0.1 localhost" ++ [LF]))
                 (Some 0) [] in
  let r := apply_changes "/opt/guard" [py "bad.com"] w in
  unmanaged_of line = [line]
  /\ snd r = inl OSError
  /\ hosts_file (fst r) = Some []
  /\ backup_file (fst r) = Some (py "127.0.0.1 localhost" ++ [LF]).
Proof. intros line w r. repeat split. Qed.

(* ================================================================== *)
(** * More on the scanner and the renderer *)
(* ================================================================== *)

Lemma strip_loop_subseq (skipping : bool) (lines : list str) :
  subseq (strip_loop skipping lines) lines.
Proof.
  revert skipping. induction lines as [|l ls IH]; intros skipping;
    [constructor|].
  cbn [strip_loop]. destruct (is_begin l); [apply subseq_drop, IH|].
  destruct (is_end l); [apply subseq_drop, IH|].
  destruct skipping; cbn [negb];
    [apply subseq_drop, IH | apply subseq_keep, IH].
Qed.

(** X1.  The scanner only leaves lines out: what it returns is its input
    with some lines removed, the others unchanged and in their order. *)
Theorem strip_managed_block_subseq (lines : list str) :
  subseq (strip_managed_block lines) lines.
Proof. rewrite strip_managed_block_loop. apply strip_loop_subseq. Qed.

(** X2.  Scanning twice is scanning once. *)
Theorem strip_managed_block_idempotent (lines : list str) :
  strip_managed_block (strip_managed_block lines) = strip_managed_block lines.
Proof.
  rewrite !strip_managed_block_loop.
  apply strip_loop_all_foreign, strip_loop_foreign.
Qed.

Lemma map_injective (A B : Type) (f : A -> B) :
  (forall x y, f x = f y -> x = y) ->
  forall xs ys, map f xs = map f ys -> xs = ys.
Proof.
  intros Hf xs. induction xs as [|x xs IH]; intros [|y ys] H;
    try discriminate; [reflexivity|].
  change (f x :: map f xs = f y :: map f ys) in H.
  assert (Hh : f x = f y) by congruence.
  assert (Ht : map f xs = map f ys) by congruence.
  f_equal; [now apply Hf | now apply IH].
Qed.

Lemma map_add_LF_inj (xs ys : list str) :
  map add_LF xs = map add_LF ys -> xs = ys.
Proof.
  apply map_injective. intros x y H. now apply app_inv_tail in H.
Qed.

Lemma map_custom_line_inj (xs ys : list str) :
  map custom_line xs = map custom_line ys -> xs = ys.
Proof.
  apply map_injective. intros x y H. unfold custom_line in H.
  apply app_inv_head in H. now apply app_inv_head in H.
Qed.

Lemma sorted_set_ext (d1 d2 : list str) :
  (forall d, In d d1 <-> In d d2) -> sorted (set_of d1) = sorted (set_of d2).
Proof.
  intros H. apply sorted_set_unique; [apply set_of_NoDup|].
  intros d. now rewrite set_of_In.
Qed.

(** X3.  The rendered block is a function of the set of domains, and a
    faithful one: two domain lists render the same block exactly when
    they have the same elements, whatever their order and their
    repetitions. *)
Theorem render_block_same_set (d1 d2 : list str) :
  render_block d1 = render_block d2 <-> (forall d, In d d1 <-> In d d2).
Proof.
  split.
  - intros H. rewrite !render_block_shape in H.
    apply (app_inv_head [add_LF BEGIN_MARKER]) in H.
    apply app_inv_tail in H.
    unfold block_inner in H. apply map_add_LF_inj in H.
    apply (app_inv_head
             (safesearch_comment :: map safesearch_line SAFESEARCH_DOMAINS))
      in H.
    destruct d1 as [|a d1], d2 as [|b d2]; try discriminate.
    + reflexivity.
    + apply (app_inv_head [custom_comment]) in H.
      apply map_custom_line_inj in H.
      intros d. rewrite <- (set_of_In (a :: d1)), <- (set_of_In (b :: d2)).
      rewrite <- (sorted_In (set_of (a :: d1))), <- (sorted_In (set_of (b :: d2))).
      now rewrite H.
  - intros H. rewrite !render_block_shape. unfold block_inner.
    destruct d1 as [|a d1], d2 as [|b d2].
    + reflexivity.
    + exfalso. apply (H b). now left.
    + exfalso. apply (H a). now left.
    + now rewrite (sorted_set_ext (a :: d1) (b :: d2) H).
Qed.

(* ================================================================== *)
(** * More on the patcher and on restore *)
(* ================================================================== *)

Lemma apply_changes_run_missing (config_dir : string) (domains : list str)
    (w : world) :
  hosts_file w = None ->
  apply_changes config_dir domains w = (w, inl FileNotFoundError).
Proof.
  intros Hh. unfold apply_changes. rewrite bind_run, ensure_backup_run, Hh.
  destruct (backup_file w); [|reflexivity].
  rewrite bind_run. unfold open_r_readlines. now rewrite Hh.
Qed.

(** X4.  With no hosts file [apply_changes] raises [FileNotFoundError] and
    leaves the world as it found it, with or without a backup: no
    backup is made, no hosts file is created and nothing is printed. *)
Theorem apply_changes_missing_hosts (config_dir : string) (domains : list str)
    (w : world) :
  hosts_file w = None ->
  apply_changes config_dir domains w = (w, inl FileNotFoundError)
  /\ hosts_file (fst (apply_changes config_dir domains w)) = None
  /\ backup_file (fst (apply_changes config_dir domains w)) = backup_file w
  /\ stdout (fst (apply_changes config_dir domains w)) = stdout w.
Proof.
  intros Hh. rewrite (apply_changes_run_missing config_dir domains w Hh).
  repeat split. exact Hh.
Qed.

Lemma apply_changes_missing_hosts_witness :
  let w := World None (Some (py "127.0.0.1 localhost" ++ [LF])) None [] in
  hosts_file w = None
  /\ apply_changes "/opt/guard" [py "bad.com"] w = (w, inl FileNotFoundError).
Proof.
  intros w. split; [reflexivity|].
  exact (proj1 (@apply_changes_missing_hosts "/opt/guard" [py "bad.com"] w
                  eq_refl)).
Defined.

(** What [restore_backup] does when a backup exists and no write
    fails. *)
Lemma restore_backup_run (config_dir : string) (w : world) (b : str) :
  backup_file w = Some b -> hosts_quota w = None ->
  restore_backup config_dir w
  = (World (Some b) (Some b) None (stdout w ++ restored_messages), inr tt).
Proof.
  intros Hb Hq.
  unfold restore_backup, bind, backup_exists, copy2_backup_to_hosts.
  rewrite Hb. cbn [negb].
  unfold bind, open_w, fwrite, flush_dns, print, set_hosts, add_stdout,
    restored_messages.
  cbn [hosts_file backup_file hosts_quota stdout app].
  rewrite Hq, Hb. cbn [hosts_file backup_file hosts_quota stdout app].
  now rewrite <- app_assoc.
Qed.

(** X5.  With a backup, a fault-free [restore_backup] returns normally and
    leaves the hosts file equal to the backup, whatever it held before
    (a managed block, foreign edits made since, or no file at all); the
    backup stays. *)
Theorem restore_backup_overwrites (config_dir : string) (w : world) (b : str) :
  backup_file w = Some b -> hosts_quota w = None ->
  exists w',
    restore_backup config_dir w = (w', inr tt)
    /\ hosts_file w' = Some b
    /\ backup_file w' = Some b
    /\ stdout w' = stdout w ++ restored_messages.
Proof.
  intros Hb Hq. eexists.
  split; [exact (restore_backup_run config_dir w Hb Hq)|].
  repeat split.
Qed.

Lemma restore_backup_overwrites_witness :
  let b := py "127.0.0.1 localhost" ++ [CR; LF] in
  let w := World (Some (py "10.0.0.9 edited" ++ [LF]
                        ++ text (render_block [py "bad.com"])))
                 (Some b) None [] in
  exists w',
    restore_backup "/opt/guard" w = (w', inr tt)
    /\ hosts_file w' = Some b
    /\ backup_file w' = Some b
    /\ stdout w' = stdout w ++ restored_messages.
Proof.
  intros b w.
  exact (@restore_backup_overwrites "/opt/guard" w b eq_refl eq_refl).
Defined.

Lemma apply_all_backup (config_dir : string) (ds : list (list str)) :
  forall (d : list str) (w : world) (c : str),
    hosts_file w = Some c -> hosts_quota w = None ->
    exists w',
      apply_all config_dir (d :: ds) w = (w', inr tt)
      /\ backup_file w' = Some (backup_after w c)
      /\ hosts_quota w' = None.
Proof.
  induction ds as [|d2 ds IH]; intros d w c Hc Hq.
  - eexists. cbn [apply_all].
    rewrite bind_run, (apply_changes_ok config_dir d w Hc Hq).
    cbn [ret]. repeat split.
  - cbn [apply_all]. rewrite bind_run, (apply_changes_ok config_dir d w Hc Hq).
    set (c1 := text (kept_of c) ++ text (render_block d)).
    set (w1 := World (Some c1) _ _ _).
    destruct (IH d2 w1 c1 eq_refl eq_refl) as (w' & Hrun & Hb & Hq').
    exists w'. split; [exact Hrun|]. split; [|exact Hq'].
    rewrite Hb. reflexivity.
Qed.

(** X6.  Restore undoes every patch.  From a world without backup, after
    any number (at least one) of fault-free runs of [apply_changes],
    with any domain lists, [restore_backup] puts back the hosts file
    exactly as it was before the first run. *)
Theorem restore_after_apply (config_dir : string) (d : list str)
    (ds : list (list str)) (w : world) (c : str) :
  hosts_file w = Some c -> backup_file w = None -> hosts_quota w = None ->
  exists w1 w2,
    apply_all config_dir (d :: ds) w = (w1, inr tt)
    /\ restore_backup config_dir w1 = (w2, inr tt)
    /\ hosts_file w2 = Some c
    /\ backup_file w2 = Some c.
Proof.
  intros Hc Hb Hq.
  destruct (apply_all_backup config_dir ds d w Hc Hq) as (w1 & Hrun & Hb1 & Hq1).
  unfold backup_after in Hb1. rewrite Hb in Hb1.
  exists w1. eexists. split; [exact Hrun|].
  split; [exact (restore_backup_run config_dir w1 Hb1 Hq1)|].
  split; reflexivity.
Qed.

Lemma restore_after_apply_witness :
  let c := py "127.0.0.1 localhost" ++ [CR; LF] ++ py "10.0.0.2 b" in
  exists w1 w2,
    apply_all "/opt/guard" [[py "bad.com"]; []; [py "a.com"; py "b.com"]]
              (World (Some c) None None [])
    = (w1, inr tt)
    /\ restore_backup "/opt/guard" w1 = (w2, inr tt)
    /\ hosts_file w2 = Some c
    /\ backup_file w2 = Some c.
Proof.
  intros c.
  exact (@restore_after_apply "/opt/guard" [py "bad.com"]
           [[]; [py "a.com"; py "b.com"]] (World (Some c) None None []) c
           eq_refl eq_refl eq_refl).
Defined.

(** X7.  The last patch wins.  When the entries of [d1] hold no line break,
    running [apply_changes] with [d1] and then with [d2] leaves the
    hosts file that running it with [d2] alone leaves: the block is
    replaced, never accumulated. *)
Theorem apply_changes_replaces_block (config_dir : string) (d1 d2 : list str)
    (w : world) (c : str) :
  hosts_file w = Some c -> hosts_quota w = None ->
  Forall line_break_free d1 ->
  exists w1 w2 w2',
    apply_changes config_dir d1 w = (w1, inr tt)
    /\ apply_changes config_dir d2 w1 = (w2, inr tt)
    /\ apply_changes config_dir d2 w = (w2', inr tt)
    /\ hosts_file w2 = hosts_file w2'.
Proof.
  intros Hc Hq Hd.
  set (c1 := text (kept_of c) ++ text (render_block d1)).
  set (w1 := World (Some c1) (Some (backup_after w c)) None
                   (stdout w ++ applied_messages config_dir)).
  exists w1. eexists. eexists.
  split; [exact (apply_changes_ok config_dir d1 w Hc Hq)|].
  split; [exact (apply_changes_ok config_dir d2 w1 eq_refl eq_refl)|].
  split; [exact (apply_changes_ok config_dir d2 w Hc Hq)|].
  cbn [hosts_file]. unfold c1.
  now rewrite kept_of_patched, (kept_of_render_block Hd), app_nil_r.
Qed.

Lemma apply_changes_replaces_block_witness :
  exists w1 w2 w2',
    apply_changes "/opt/guard" [py "old.example"]
      (World (Some (py "10.0.0.1 a")) None None []) = (w1, inr tt)
    /\ apply_changes "/opt/guard" [py "bad.com"] w1 = (w2, inr tt)
    /\ apply_changes "/opt/guard" [py "bad.com"]
         (World (Some (py "10.0.0.1 a")) None None []) = (w2', inr tt)
    /\ hosts_file w2 = hosts_file w2'.
Proof.
  apply (@apply_changes_replaces_block "/opt/guard" [py "old.example"]
           [py "bad.com"] (World (Some (py "10.0.0.1 a")) None None [])
           (py "10.0.0.1 a") eq_refl eq_refl).
  repeat constructor; now apply line_break_freeb_spec.
Defined.

Lemma render_block_no_CR_if (domains : list str) :
  Forall (fun d => ~ In CR d) domains ->
  Forall (fun l => ~ In CR l) (render_block domains).
Proof.
  intros HD. rewrite render_block_shape.
  assert (Hfix : forall l, line_break_freeb l = true -> ~ In CR (add_LF l)).
  { intros l Hl. now apply add_LF_terminated, line_break_freeb_spec. }
  assert (Hcustom : forall d, ~ In CR d -> ~ In CR (add_LF (custom_line d))).
  { intros d Hd Hin. unfold add_LF, custom_line in Hin.
    rewrite !in_app_iff in Hin. cbn [In] in Hin.
    destruct Hin as [[H|[[H|[]]|H]]|[H|[]]];
      try discriminate; try contradiction.
    revert H. exact (proj2 (proj1 (line_break_freeb_spec block_address) eq_refl)). }
  constructor; [now apply Hfix|].
  apply Forall_app. split; [|constructor; [now apply Hfix | constructor]].
  unfold block_inner. apply Forall_map.
  constructor; [now apply Hfix|].
  apply Forall_app. split.
  - repeat (constructor; [now apply Hfix|]). constructor.
  - destruct domains as [|d ds]; [constructor|].
    constructor; [now apply Hfix|].
    apply Forall_map, Forall_forall. intros x Hx. apply Hcustom.
    rewrite Forall_forall in HD. apply HD. now apply set_of_In, sorted_In.
Qed.

(** X8.  Line ends are rewritten.  The hosts file is read with universal
    newlines and written back with plain line feeds: when no domain
    entry holds a carriage return, the file a fault-free
    [apply_changes] leaves holds none, also where the foreign lines of
    the file it found ended in CR LF or in CR. *)
Theorem apply_changes_no_carriage_return (config_dir : string)
    (domains : list str) (w : world) (c : str) :
  hosts_file w = Some c -> hosts_quota w = None ->
  Forall (fun d => ~ In CR d) domains ->
  exists w' c',
    apply_changes config_dir domains w = (w', inr tt)
    /\ hosts_file w' = Some c'
    /\ ~ In CR c'.
Proof.
  intros Hc Hq Hd. eexists. eexists.
  split; [exact (apply_changes_ok config_dir domains w Hc Hq)|].
  split; [reflexivity|].
  rewrite in_app_iff. intros [H|H]; revert H; apply not_in_text.
  - apply kept_of_no_CR.
  - now apply render_block_no_CR_if.
Qed.

Lemma apply_changes_no_carriage_return_witness :
  exists w' c',
    apply_changes "/opt/guard" [py "bad.com"]
      (World (Some (py "10.0.0.1 a" ++ [CR; LF] ++ py "10.0.0.2 b" ++ [CR]))
             None None [])
    = (w', inr tt)
    /\ hosts_file w' = Some c'
    /\ ~ In CR c'.
Proof.
  apply (@apply_changes_no_carriage_return "/opt/guard" [py "bad.com"]
           (World (Some (py "10.0.0.1 a" ++ [CR; LF] ++ py "10.0.0.2 b" ++ [CR]))
                  None None [])
           (py "10.0.0.1 a" ++ [CR; LF] ++ py "10.0.0.2 b" ++ [CR])
           eq_refl eq_refl).
  repeat constructor; now apply (line_break_freeb_spec (py "bad.com")).
Defined.

(* ================================================================== *)
(** * The configuration file *)
(* ================================================================== *)

Lemma map_py_str_strings (str_other : json -> str) (xs : list str) :
  map (py_str str_other) (map JString xs) = xs.
Proof.
  induction xs as [|x xs IH]; [reflexivity|].
  cbn [map py_str]. now rewrite IH.
Qed.

(** X9.  Saving then loading.  An array of strings loads as it is written,
    in its order and with its repetitions; what [load_config] returns
    after [save_config] is therefore not the list that was saved but its
    sorted set: strictly increasing, with exactly the elements of the
    saved list. *)
Theorem load_config_after_save (str_other : json -> str) (domains : list str) :
  (forall xs, load_config str_other (Some (Document (JArray (map JString xs)))) = xs)
  /\ load_config str_other (save_config domains) = sorted (set_of domains)
  /\ strictly_sorted (load_config str_other (save_config domains))
  /\ (forall d, In d (load_config str_other (save_config domains))
                <-> In d domains).
Proof.
  assert (E : load_config str_other (save_config domains)
              = sorted (set_of domains)).
  { unfold save_config. cbn [load_config]. apply map_py_str_strings. }
  rewrite E. split; [|split; [|split]].
  - intros xs. cbn [load_config]. apply map_py_str_strings.
  - reflexivity.
  - apply sorted_strict, set_of_NoDup.
  - intros d. now rewrite sorted_In, set_of_In.
Qed.



(** X11.  The saved file is a function of the set of domains, and a faithful
    one: two lists are saved as the same file exactly when they have
    the same elements.  So saving what was loaded after a save changes
    nothing. *)
Theorem save_config_same_set (str_other : json -> str) (d1 d2 : list str) :
  (save_config d1 = save_config d2 <-> (forall d, In d d1 <-> In d d2))
  /\ save_config (load_config str_other (save_config d1)) = save_config d1.
Proof.
  assert (Hiff : forall a b,
             save_config a = save_config b <-> (forall d, In d a <-> In d b)).
  { intros a b. unfold save_config. split.
    - intros H. injection H as H.
      apply (@map_injective str json JString) in H;
        [|intros x y E; now injection E].
      intros d. rewrite <- (set_of_In a), <- (set_of_In b).
      rewrite <- (sorted_In (set_of a)), <- (sorted_In (set_of b)).
      now rewrite H.
    - intros H. now rewrite (sorted_set_ext a b H). }
  split; [apply Hiff|].
  apply Hiff. intros d.
  unfold save_config at 1. cbn [load_config]. rewrite map_py_str_strings.
  now rewrite sorted_In, set_of_In.
Qed.

(* ================================================================== *)
(** * The menu *)
(* ================================================================== *)

Functional Scheme menu_from_ind := Induction for menu_from Sort Prop.


Lemma same_files_refl (w : world) : same_files w w.
Proof. repeat split. Qed.

Lemma same_files_trans (w1 w2 w3 : world) :
  same_files w1 w2 -> same_files w2 w3 -> same_files w1 w3.
Proof.
  unfold same_files. intros (H1 & H2 & H3) (H4 & H5 & H6).
  repeat split; congruence.
Qed.

Lemma say_same_files (show : str -> string) (s : str) (w : world) :
  same_files w (say show s w).
Proof. repeat split. Qed.

Lemma fold_say_same_files (show : str -> string) (A : Type) (f : A -> str)
    (xs : list A) (w : world) :
  same_files w (fold_left (fun w x => say show (f x) w) xs w).
Proof.
  revert w. induction xs as [|x xs IH]; intros w; [apply same_files_refl|].
  cbn [fold_left]. eapply same_files_trans; [|apply IH].
  apply say_same_files.
Qed.

Lemma menu_header_same_files (show : str -> string) (w : world) :
  same_files w (menu_header show w).
Proof.
  unfold menu_header. eapply same_files_trans; [apply say_same_files|].
  apply (fold_say_same_files show
           (fun key => py "[" ++ key ++ py "] " ++ dict_get actions key)).
Qed.

Lemma list_domains_same_files (show : str -> string) (domains : list str)
    (w : world) :
  same_files w (list_domains show domains w).
Proof.
  unfold list_domains. destruct (sorted (set_of domains)) as [|u us].
  - apply say_same_files.
  - eapply same_files_trans; [apply say_same_files|].
    apply (fold_say_same_files show (fun d => py " - " ++ d)).
Qed.

Lemma prompt_same_files (show : str -> string) (w : world) :
  same_files w (say show (py "Select an option: ") (menu_header show w)).
Proof.
  eapply same_files_trans; [apply menu_header_same_files | apply say_same_files].
Qed.

Lemma apply_changes_backup_kept (config_dir : string) (domains : list str)
    (w : world) (b : str) :
  backup_file w = Some b ->
  backup_file (fst (apply_changes config_dir domains w)) = Some b.
Proof.
  intros Hb. destruct (hosts_file w) as [c|] eqn:Hc.
  - rewrite (apply_changes_run config_dir domains w Hc).
    unfold backup_after. rewrite Hb.
    destruct (hosts_quota w) as [q|]; [|reflexivity].
    destruct (_ <=? q); reflexivity.
  - now rewrite (apply_changes_run_missing config_dir domains w Hc).
Qed.

Lemma restore_backup_backup_kept (config_dir : string) (w : world) :
  backup_file (fst (restore_backup config_dir w)) = backup_file w.
Proof.
  unfold restore_backup, bind, backup_exists.
  destruct (backup_file w) as [b|] eqn:Hb; cbn [negb];
    [|cbn [print fst add_stdout backup_file]; exact Hb].
  unfold copy2_backup_to_hosts, bind, open_w, fwrite, flush_dns, print,
    set_hosts, set_quota, add_stdout.
  rewrite Hb. cbn [hosts_file backup_file hosts_quota stdout].
  destruct (hosts_quota w) as [q|];
    cbn [hosts_file backup_file hosts_quota stdout fst];
    [|first [exact Hb | reflexivity]].
  destruct (List.length b <=? q);
    cbn [hosts_file backup_file hosts_quota stdout fst];
    first [exact Hb | reflexivity].
Qed.

Section MenuFacts.

Variable str_other : json -> str.
Variable lower : str -> str.
Variable show : str -> string.
Variable config_dir : string.


Lemma menu_from_files (stdin domains : list str)
    (config : option config_text) (w : world) :
  Forall (fun l => strip l <> py "4" /\ strip l <> py "5") stdin ->
  same_files w (end_world (menu_from lower show config_dir stdin domains config w)).
Proof.
  functional induction (menu_from lower show config_dir stdin domains config w);
    intros Hin; cbn [end_world];
    repeat match goal with
           | H : Forall _ (_ :: _) |- _ => inversion H; subst; clear H
           end.
  all: try (exfalso;
            match goal with
            | E : str_eqb (strip ?t) ?k = true, H : strip ?t <> _ /\ _ |- _ =>
                apply str_eqb_eq in E; destruct H; congruence
            end).
  all: try (eapply same_files_trans; [|apply IHm; assumption]).
  all: repeat match goal with
              | |- same_files ?a (say _ _ ?b) =>
                  apply (same_files_trans (w2 := b)); [|apply say_same_files]
              | |- same_files ?a (list_domains _ _ ?b) =>
                  apply (same_files_trans (w2 := b));
                  [|apply list_domains_same_files]
              | |- same_files ?a (menu_header _ ?a) =>
                  apply menu_header_same_files
              end.
Qed.

Lemma menu_from_config (stdin domains : list str)
    (config : option config_text) (w : world) :
  Forall (fun l => strip l <> py "1" /\ strip l <> py "2") stdin ->
  end_config (menu_from lower show config_dir stdin domains config w) = config
  /\ end_domains (menu_from lower show config_dir stdin domains config w) = domains.
Proof.
  functional induction (menu_from lower show config_dir stdin domains config w);
    intros Hin; cbn [end_config end_domains];
    repeat match goal with
           | H : Forall _ (_ :: _) |- _ => inversion H; subst; clear H
           end;
    try (split; reflexivity);
    try (apply IHm; assumption);
    exfalso;
    match goal with
    | E : str_eqb (strip ?t) ?k = true, H : strip ?t <> _ /\ _ |- _ =>
        apply str_eqb_eq in E; destruct H; congruence
    end.
Qed.

Lemma menu_from_backup (stdin domains : list str)
    (config : option config_text) (w : world) (b : str) :
  backup_file w = Some b ->
  backup_file (end_world (menu_from lower show config_dir stdin domains config w))
  = Some b.
Proof.
  functional induction (menu_from lower show config_dir stdin domains config w);
    intros Hb; cbn [end_world];
    assert (Hp : backup_file (say show (py "Select an option: ")
                                  (menu_header show w)) = Some b)
      by (rewrite (proj1 (proj2 (prompt_same_files show w))); exact Hb);
    try exact Hp; try (apply IHm; exact Hp).
  - apply IHm.
    rewrite (proj1 (proj2 (list_domains_same_files show domains _))). exact Hp.
  - replace w1 with (fst (apply_changes config_dir domains
                            (say show (py "Select an option: ")
                                 (menu_header show w))))
      by (now rewrite e4).
    now apply apply_changes_backup_kept.
  - apply IHm.
    replace w1 with (fst (apply_changes config_dir domains
                            (say show (py "Select an option: ")
                                 (menu_header show w))))
      by (now rewrite e4).
    now apply apply_changes_backup_kept.
  - replace w1 with (fst (restore_backup config_dir
                            (say show (py "Select an option: ")
                                 (menu_header show w))))
      by (now rewrite e5).
    now rewrite restore_backup_backup_kept.
  - apply IHm.
    replace w1 with (fst (restore_backup config_dir
                            (say show (py "Select an option: ")
                                 (menu_header show w))))
      by (now rewrite e5).
    now rewrite restore_backup_backup_kept.
Qed.

Lemma menu_from_exit (stdin domains : list str)
    (config : option config_text) (w : world) :
  let r := menu_from lower show config_dir stdin domains config w in
  (end_result r = inr tt ->
   exists read l, stdin = read ++ l :: end_stdin r /\ strip l = py "0")
  /\ (end_result r = inl EOFError -> end_stdin r = []).
Proof.
  cbv zeta.
  functional induction (menu_from lower show config_dir stdin domains config w);
    cbn [end_result end_stdin];
    try (split; [discriminate | reflexivity]);
    try (split; discriminate).
  all: try (destruct IHm as [IHok IHeof]; split; [|exact IHeof];
            intros Hok; destruct (IHok Hok) as (read & l & Hread & Hl)).
  all: try (exists (typed :: typed2 :: read), l; split; [|exact Hl];
            cbn [app]; now rewrite <- Hread).
  all: try (exists (typed :: read), l; split; [|exact Hl];
            cbn [app]; now rewrite <- Hread).
  split; [|discriminate]. intros _. exists [], typed.
  split; [reflexivity|]. now apply str_eqb_eq.
Qed.

Lemma menu_from_no_empty (stdin domains : list str)
    (config : option config_text) (w : world) :
  ~ In [] domains ->
  ~ In [] (end_domains (menu_from lower show config_dir stdin domains config w)).
Proof.
  functional induction (menu_from lower show config_dir stdin domains config w);
    intros Hne; cbn [end_domains]; try exact Hne; try (apply IHm; exact Hne).
  - apply IHm. rewrite in_app_iff. intros [H|[H|[]]]; [contradiction|].
    rewrite e2 in H. discriminate H.
  - apply IHm. rewrite filter_In. tauto.
Qed.

End MenuFacts.

(** ** What a menu session keeps *)


(** X13.  Only options 4 and 5 touch the files.  When no line of the input
    trims to 4 or to 5, the hosts file and the backup are at the end of
    [menu_loop] what they were at its start. *)
Theorem menu_loop_files_untouched (str_other : json -> str) (lower : str -> str)
    (show : str -> string) (config_dir : string) (stdin : list str)
    (config : option config_text) (w : world) :
  Forall (fun l => strip l <> py "4" /\ strip l <> py "5") stdin ->
  hosts_file (end_world (menu_loop str_other lower show config_dir stdin config w))
  = hosts_file w
  /\ backup_file (end_world (menu_loop str_other lower show config_dir stdin config w))
     = backup_file w.
Proof.
  intros H. unfold menu_loop.
  destruct (menu_from_files lower show config_dir (load_config str_other config)
              config w H) as (Hh & Hb & _).
  split; assumption.
Qed.

Lemma menu_loop_files_untouched_witness :
  let w := World (Some (py "127.0.0.1 localhost" ++ [LF])) None None [] in
  let r := menu_loop str_other_example lower_ascii show_latin1 "/opt/guard"
             [py "1"; py "Bad.COM"; py "3"; py "2"; py "example.com"; py "0"]
             None w in
  end_domains r = [py "badsite.com"; py "bad.com"]
  /\ hosts_file (end_world r) = hosts_file w
  /\ backup_file (end_world r) = backup_file w.
Proof.
  intros w r. split; [reflexivity|].
  apply (@menu_loop_files_untouched str_other_example lower_ascii show_latin1
           "/opt/guard"
           [py "1"; py "Bad.COM"; py "3"; py "2"; py "example.com"; py "0"]
           None w).
  repeat constructor; discriminate.
Defined.

(** X14.  Only options 1 and 2 touch the configuration.  When no line of the
    input trims to 1 or to 2, [menu_loop] ends with the configuration
    file as it found it (it is never created or rewritten) and with the
    domains it loaded. *)
Theorem menu_loop_config_untouched (str_other : json -> str)
    (lower : str -> str) (show : str -> string) (config_dir : string)
    (stdin : list str) (config : option config_text) (w : world) :
  Forall (fun l => strip l <> py "1" /\ strip l <> py "2") stdin ->
  end_config (menu_loop str_other lower show config_dir stdin config w) = config
  /\ end_domains (menu_loop str_other lower show config_dir stdin config w)
     = load_config str_other config.
Proof.
  intros H. unfold menu_loop. now apply menu_from_config.
Qed.

Lemma menu_loop_config_untouched_witness :
  let w := World (Some (py "127.0.0.1 localhost" ++ [LF])) None None [] in
  let r := menu_loop str_other_example lower_ascii show_latin1 "/opt/guard"
             [py "3"; py " 4 "; py "7"; py "5"; py "0"] None w in
  end_result r = inr tt
  /\ backup_file (end_world r) = Some (py "127.0.0.1 localhost" ++ [LF])
  /\ end_config r = None
  /\ end_domains r = load_config str_other_example None.
Proof.
  intros w r. split; [reflexivity|]. split; [reflexivity|].
  apply (@menu_loop_config_untouched str_other_example lower_ascii show_latin1
           "/opt/guard" [py "3"; py " 4 "; py "7"; py "5"; py "0"] None w).
  repeat constructor; discriminate.
Defined.

(** X15.  The backup is written once for the whole session.  When a backup
    exists at the start of [menu_loop], it is the same at its end,
    whatever is typed and however the loop ends. *)
Theorem menu_loop_backup_kept (str_other : json -> str) (lower : str -> str)
    (show : str -> string) (config_dir : string) (stdin : list str)
    (config : option config_text) (w : world) (b : str) :
  backup_file w = Some b ->
  backup_file (end_world (menu_loop str_other lower show config_dir stdin config w))
  = Some b.
Proof.
  intros H. unfold menu_loop. now apply menu_from_backup.
Qed.

Lemma menu_loop_backup_kept_witness :
  let b := py "127.0.0.1 localhost" ++ [LF] in
  let w := World (Some (py "10.0.0.1 edited" ++ [LF])) (Some b) None [] in
  let r := menu_loop str_other_example lower_ascii show_latin1 "/opt/guard"
             [py "4"; py "1"; py "bad.com"; py "4"; py "5"; py "4"] None w in
  end_result r = inl EOFError
  /\ backup_file (end_world r) = Some b.
Proof.
  intros b w r. split; [reflexivity|].
  exact (@menu_loop_backup_kept str_other_example lower_ascii show_latin1
           "/opt/guard"
           [py "4"; py "1"; py "bad.com"; py "4"; py "5"; py "4"] None w b
           eq_refl).
Defined.

(** X16.  How the loop ends.  [menu_loop] returns normally only by option 0:
    the input then splits into the lines read before, a line that trims
    to 0, and the lines left unread.  When it ends with [EOFError],
    every line of the input has been read. *)
Theorem menu_loop_exit (str_other : json -> str) (lower : str -> str)
    (show : str -> string) (config_dir : string) (stdin : list str)
    (config : option config_text) (w : world) :
  (end_result (menu_loop str_other lower show config_dir stdin config w) = inr tt ->
   exists read l,
     stdin = read ++ l
             :: end_stdin (menu_loop str_other lower show config_dir stdin config w)
     /\ strip l = py "0")
  /\ (end_result (menu_loop str_other lower show config_dir stdin config w)
      = inl EOFError ->
      end_stdin (menu_loop str_other lower show config_dir stdin config w) = []).
Proof.
  unfold menu_loop.
  exact (menu_from_exit lower show config_dir stdin
           (load_config str_other config) config w).
Qed.

(** X17.  No empty domain is ever added.  When the loaded configuration
    holds no empty string, the loop's domains hold none at the end:
    option 1 with a blank line adds nothing. *)
Theorem menu_loop_no_empty_domain (str_other : json -> str)
    (lower : str -> str) (show : str -> string) (config_dir : string)
    (stdin : list str) (config : option config_text) (w : world) :
  ~ In [] (load_config str_other config) ->
  ~ In [] (end_domains (menu_loop str_other lower show config_dir stdin config w)).
Proof.
  intros H. unfold menu_loop. now apply menu_from_no_empty.
Qed.

Lemma menu_loop_no_empty_domain_witness :
  let r := menu_loop str_other_example lower_ascii show_latin1 "/opt/guard"
             [py "1"; py "   "; py "1"; py " A.com "; py "0"] None
             (World None None None []) in
  end_domains r = [py "example.com"; py "badsite.com"; py "a.com"]
  /\ ~ In [] (end_domains r).
Proof.
  intros r. split; [reflexivity|].
  apply (@menu_loop_no_empty_domain str_other_example lower_ascii show_latin1
           "/opt/guard" [py "1"; py "   "; py "1"; py " A.com "; py "0"] None
           (World None None None [])).
  cbn. intros [H|[H|[]]]; discriminate H.
Defined.
